(** * WareBalancerAI: the analytical pipeline of [utils.py]

    A shallow embedding of the functions of [utils.py]:
    [calculate_demand], [compute_spi], [recommend_transfers],
    [calculate_metrics], [simulate_demand_change], [simulate_cost_change]
    and [validate_data], together with the properties of the pipeline.

    Conventions of the embedding.
    - A table of the pipeline is a list of records, one record per row, in
      row order. Its columns are those that [validate_data] requires, and
      its numeric columns hold numbers: text or a missing value in a numeric
      column, which [validate_data] does not rule out for every column, is
      outside the model of the pipeline.
    - A raw table, as [validate_data] receives it, is a finite map from
      column names to columns of cells.
    - A number is the rational [Q] it denotes. A Python float or a cell of
      a float64 column denotes a binary64 number, and an operation on
      floats returns the binary64 number nearest to the exact result
      ([fl], halves to the even significand); infinities and NaN are not
      modelled. A cell of an int64 column denotes an integer, and the
      arithmetic of such columns wraps around modulo [2^64].
    - A Python exception is a value of [exn] returned in [Raise].
    - [pandas.to_datetime], the sort behind [sort_values], the random
      source behind [DataFrame.sample] and the arithmetic of numpy on the
      scalars taken from a row belong to the libraries; they are parameters
      of the functions that call them. *)

From stdpp Require Import gmap strings.
From Stdlib Require Import List Bool Arith ZArith QArith Qround Qabs Lia.
From Stdlib Require Import String Ascii Permutation Sorted Floats.
Import ListNotations.

Local Open Scope string_scope.
Local Open Scope list_scope.
Local Open Scope Q_scope.

(** ** Python values *)

Inductive exn : Type :=
| ZeroDivisionError
| TypeError
| ValueError
| ParserError.

Inductive result (A : Type) : Type :=
| Ok (a : A)
| Raise (e : exn).
Arguments Ok {A} a.
Arguments Raise {A} e.

#[global] Instance result_ret : MRet result := fun A a => Ok a.
#[global] Instance result_bind : MBind result := fun A B k m =>
  match m with
  | Ok a => k a
  | Raise e => Raise e
  end.

#[global] Instance result_fmap : FMap result := fun A B f m =>
  match m with
  | Ok a => Ok (f a)
  | Raise e => Raise e
  end.

(** Python's [min(a, b)]: the first argument unless the second is smaller. *)
Definition py_min (a b : Q) : Q :=
  if Qlt_le_dec b a then b else a.

(** Python's [int(x)] on a number: truncation toward zero. *)
Definition py_int (x : Q) : Z :=
  Z.quot (Qnum x) (Zpos (Qden x)).

(** Python's [round(x)]: to the nearest integer, halves to the even one. *)
Definition py_round (x : Q) : Z :=
  let f := Qfloor x in
  match Qcompare (x - inject_Z f) (1 # 2) with
  | Lt => f
  | Gt => (f + 1)%Z
  | Eq => if Z.even f then f else (f + 1)%Z
  end.

(** The multiple of [1/100] nearest to [x], halves to the even multiple. *)
Definition nearest_hundredth (x : Q) : Q :=
  py_round (x * 100) # 100.

(** *** Binary64 *)

(** [2^p] for an integer [p]. *)
Definition pow2 (p : Z) : Q :=
  if (0 <=? p)%Z then inject_Z (2 ^ p) else 1 # Z.to_pos (2 ^ (- p)).

(** For [x > 0], the [e] with [2^e <= x < 2^(e+1)]. *)
Definition exponent (x : Q) : Z :=
  let k := (Z.log2 (Qnum x) - Z.log2 (Zpos (Qden x)))%Z in
  if Qle_bool (pow2 k) x then k else (k - 1)%Z.

(** The multiple of [2^p] nearest to [x], halves to the even multiple. *)
Definition round_at (p : Z) (x : Q) : Q :=
  inject_Z (py_round (x / pow2 p)) * pow2 p.

(** The exponent of the last place of the binary64 numbers of the size of
    [x > 0]: 53 significant bits, and [2^-1074] at the least. *)
Definition ulp_exponent (x : Q) : Z := Z.max (exponent x - 52) (-1074).

(** The binary64 number nearest to [x]: what [float] makes of a decimal or
    of an integer, and how every operation on floats ends. *)
Definition fl (x : Q) : Q :=
  let y := Qred x in
  match Qcompare y 0 with
  | Eq => 0
  | Gt => round_at (ulp_exponent y) y
  | Lt => - round_at (ulp_exponent (- y)) (- y)
  end.

(** [x * y], [x / y], [x + y] and [x - y] on Python floats. *)
Definition fmul (x y : Q) : Q := fl (x * y).
Definition fdiv (x y : Q) : Q := fl (x / y).
Definition fadd (x y : Q) : Q := fl (x + y).
Definition fsub (x y : Q) : Q := fl (x - y).

(** Python's [round(x, 2)] on a float: the decimal nearest to the exact
    value of [x], then the float nearest to that decimal. *)
Definition py_round2 (x : Q) : Q := fl (nearest_hundredth x).

(** *** Columns of numbers *)

(** The dtype of a column of numbers. *)
Inductive dtype : Type :=
| int64
| float64.

(** The dtype of the result of an operation of numpy on two columns. *)
Definition result_type (a b : dtype) : dtype :=
  match a, b with
  | int64, int64 => int64
  | _, _ => float64
  end.

(** The integer of the int64 range congruent to [z] modulo [2^64]. *)
Definition wrap64 (z : Z) : Z := ((z + 2 ^ 63) mod 2 ^ 64 - 2 ^ 63)%Z.

(** [x - y] on the cells of two columns of dtypes [a] and [b]: on two int64
    columns the difference wraps around, otherwise both cells are taken as
    floats and the difference is rounded. *)
Definition series_sub (a b : dtype) (x y : Q) : Q :=
  match result_type a b with
  | int64 => inject_Z (wrap64 (py_int x - py_int y))
  | float64 => fsub (fl x) (fl y)
  end.

(** The arithmetic of numpy on the scalars of a row, which depends on the
    dtypes of the columns and on whether the row comes from [iterrows]
    (Python scalars) or from [iloc] (numpy scalars): the difference and the
    product of two scalars, [round(x, 2)] on a scalar of an [iloc] row and
    on one of an [iterrows] row, and [Series.mean()] and [Series.sum()] on a
    column. *)
Record Numpy : Type := {
  scalar_sub : Q -> Q -> Q;
  scalar_mul : Q -> Q -> Q;
  np_round2 : Q -> Q;
  row_round2 : Q -> Q;
  series_mean : list Q -> Q;
  series_sum : list Q -> Q
}.

Definition Qltb (a b : Q) : bool :=
  match Qcompare a b with Lt => true | _ => false end.

(** ** Data model *)

(** A cell of the [Order_Date] column: the text read from the file, or the
    timestamp [pandas.to_datetime] made of it (nanoseconds). *)
Inductive date_cell : Type :=
| DateText (s : string)
| Timestamp (ns : Z).

Record WarehouseRecord : Type := {
  Warehouse_ID : string;
  Location : string;
  Product_Category : string;
  Current_Stock_Units : Q;
  Reorder_Level : Q;
  Storage_Cost_per_Unit : Q
}.

(** A row of the orders table. The two grouping columns may hold a missing
    value ([None]): [validate_data] accepts such a table. *)
Record OrderRecord : Type := {
  Order_ID : string;
  Order_Date : date_cell;
  Origin : option string;
  order_Product_Category : option string;
  Order_Value_INR : Q
}.

Record DemandRow : Type := {
  demand_Origin : string;
  demand_Product_Category : string;
  Monthly_Demand : Q
}.

(** A row of the merged table: the warehouse columns, then [Origin] and
    [Monthly_Demand] from the demand table, then [SPI]. *)
Record PressureRow : Type := {
  wh : WarehouseRecord;
  merged_Origin : option string;
  merged_Monthly_Demand : Q;
  SPI : Q
}.

Record TransferRecommendation : Type := {
  rec_Product_Category : string;
  From_Warehouse : string;
  From_Location : string;
  To_Warehouse : string;
  To_Location : string;
  Units : Z;
  Estimated_Saving_INR : Q;
  Donor_SPI : Q;
  Receiver_SPI : Q
}.

(** ** calculate_demand *)

Definition group_key : Type := (string * string)%type.

Definition key_eqb (a b : group_key) : bool :=
  String.eqb (fst a) (fst b) && String.eqb (snd a) (snd b).

(** Lexicographic order on the pair of grouping columns. *)
Definition key_leb (a b : group_key) : bool :=
  match String.compare (fst a) (fst b) with
  | Lt => true
  | Gt => false
  | Eq => String.leb (snd a) (snd b)
  end.

(** The key of an order, when neither grouping column is missing. *)
Definition order_key (o : OrderRecord) : option group_key :=
  match Origin o, order_Product_Category o with
  | Some origin, Some cat => Some (origin, cat)
  | _, _ => None
  end.

(** The keys of the orders that have one, in row order. *)
Definition present_keys (orders : list OrderRecord) : list group_key :=
  flat_map (fun o => match order_key o with
                     | Some k => [k]
                     | None => []
                     end) orders.

Definition has_key (k : group_key) (o : OrderRecord) : bool :=
  match order_key o with
  | Some k' => key_eqb k k'
  | None => false
  end.

(** The distinct keys, in order of first appearance. *)
Fixpoint unique_keys (l : list group_key) : list group_key :=
  match l with
  | [] => []
  | k :: t => k :: List.filter (fun k' => negb (key_eqb k k')) (unique_keys t)
  end.

Fixpoint insert_key (k : group_key) (l : list group_key) : list group_key :=
  match l with
  | [] => [k]
  | h :: t => if key_leb k h then k :: h :: t else h :: insert_key k t
  end.

Definition sort_keys (l : list group_key) : list group_key :=
  fold_right insert_key [] l.

Definition group_size (k : group_key) (orders : list OrderRecord) : nat :=
  List.length (List.filter (has_key k) orders).

(** [orders.groupby(['Origin', 'Product_Category']).size()
       .reset_index(name='Monthly_Demand')]: the rows with a missing value
    in a grouping column are left out ([dropna=True], the default); one row
    per distinct key of the others, the keys sorted, the size of each
    group. *)
Definition groupby_size (orders : list OrderRecord) : list DemandRow :=
  List.map
    (fun k => {| demand_Origin := fst k;
                 demand_Product_Category := snd k;
                 Monthly_Demand := inject_Z (Z.of_nat (group_size k orders)) |})
    (sort_keys (unique_keys (present_keys orders))).

(** [pandas.to_datetime] on a column: what it makes of one text of the
    column, a timestamp or a parse error. The format is inferred from the
    column, so the outcome for a text depends on the column it stands in. *)
Definition Parser : Type := list date_cell -> string -> option Z.

Section Demand.

Variable to_datetime : Parser.

Definition parse_date (column : list date_cell) (c : date_cell) : result date_cell :=
  match c with
  | Timestamp ns => Ok (Timestamp ns)
  | DateText s =>
      match to_datetime column s with
      | Some ns => Ok (Timestamp ns)
      | None => Raise ParserError
      end
  end.

Definition set_Order_Date (o : OrderRecord) (d : date_cell) : OrderRecord :=
  {| Order_ID := Order_ID o;
     Order_Date := d;
     Origin := Origin o;
     order_Product_Category := order_Product_Category o;
     Order_Value_INR := Order_Value_INR o |}.

(** [calculate_demand] assigns the parsed dates to the [Order_Date] column
    of its argument and then groups. The first component of the result is
    the caller's [orders] table as the call leaves it, the second is the
    returned demand table. *)
Definition calculate_demand (orders : list OrderRecord)
  : result (list OrderRecord * list DemandRow) :=
  let column := List.map Order_Date orders in
  orders' ← mapM (fun o => d ← parse_date column (Order_Date o);
                           Ok (set_Order_Date o d)) orders;
  Ok (orders', groupby_size orders').

End Demand.

(** ** compute_spi *)

Definition demand_matches (w : WarehouseRecord) (d : DemandRow) : bool :=
  String.eqb (Location w) (demand_Origin d)
  && String.eqb (Product_Category w) (demand_Product_Category d).

(** [warehouse.merge(demand, left_on=['Location', 'Product_Category'],
       right_on=['Origin', 'Product_Category'], how='left')]: every warehouse
    row, in order, once with each demand row that matches it, and once with
    missing values when none does. *)
Definition merge_left (warehouse : list WarehouseRecord) (demand : list DemandRow)
  : list (WarehouseRecord * option DemandRow) :=
  flat_map
    (fun w =>
       match List.filter (demand_matches w) demand with
       | [] => [(w, None)]
       | ds => List.map (fun d => (w, Some d)) ds
       end)
    warehouse.

(** [fillna(0)] on the [Monthly_Demand] column. *)
Definition fillna0 (d : option DemandRow) : Q :=
  match d with
  | Some d => Monthly_Demand d
  | None => 0
  end.

(** The dtypes of the two stock columns of the warehouse table, as the
    table was read. *)
Record WarehouseDtypes : Type := {
  Current_Stock_Units_dtype : dtype;
  Reorder_Level_dtype : dtype
}.

Definition is_matched (p : WarehouseRecord * option DemandRow) : bool :=
  match snd p with
  | Some _ => true
  | None => false
  end.

(** The dtype of [Monthly_Demand] after the merge: the counts are int64,
    and the column turns float64 when a row without a match puts a missing
    value into it. *)
Definition Monthly_Demand_dtype (merged : list (WarehouseRecord * option DemandRow))
  : dtype :=
  if forallb is_matched merged then int64 else float64.

(** [(Current_Stock_Units - Reorder_Level) - Monthly_Demand] on the cells of
    one row, the three columns of dtypes [s], [r] and [d]. *)
Definition pressure (s r d : dtype) (stock reorder demand : Q) : Q :=
  series_sub (result_type s r) d (series_sub s r stock reorder) demand.

Definition compute_spi (dtypes : WarehouseDtypes) (warehouse : list WarehouseRecord)
    (demand : list DemandRow) : list PressureRow :=
  let merged := merge_left warehouse demand in
  let demand_dtype := Monthly_Demand_dtype merged in
  List.map
    (fun '(w, d) =>
       let md := fillna0 d in
       {| wh := w;
          merged_Origin := option_map demand_Origin d;
          merged_Monthly_Demand := md;
          SPI := pressure (Current_Stock_Units_dtype dtypes)
                   (Reorder_Level_dtype dtypes) demand_dtype
                   (Current_Stock_Units w) (Reorder_Level w) md |})
    merged.

(** ** sort_values *)

(** The sort algorithm behind [sort_values] ([kind='quicksort'], the
    default): an argsort, of which only what every sort guarantees is known:
    it returns a permutation of the positions, and the values taken in that
    order are ascending. How equal values are ordered is left to the
    algorithm. *)
Record SortKind : Type := {
  argsort : list Q -> list nat;
  argsort_perm : forall l, Permutation (argsort l) (seq 0 (List.length l));
  argsort_sorted : forall l,
    StronglySorted Qle (List.map (fun i => nth i l 0) (argsort l))
}.

(** pandas' [nargsort]: a descending sort reverses the values, sorts them
    ascending and reverses the outcome. *)
Definition nargsort (K : SortKind) (items : list Q) (ascending : bool) : list nat :=
  if ascending then argsort K items
  else
    let idx := rev (seq 0 (List.length items)) in
    rev (List.map (fun j => nth j idx 0%nat) (argsort K (rev items))).

(** [DataFrame.take]: the rows at the given positions. *)
Definition take_rows {A : Type} (rows : list A) (indexer : list nat) : list A :=
  flat_map (fun i => match nth_error rows i with
                     | Some r => [r]
                     | None => []
                     end) indexer.

Definition sort_values {A : Type} (K : SortKind) (by_col : A -> Q)
    (ascending : bool) (rows : list A) : list A :=
  take_rows rows (nargsort K (List.map by_col rows) ascending).

(** ** recommend_transfers *)

Definition is_shortage (r : PressureRow) : bool := Qltb (SPI r) 0.
Definition is_surplus (r : PressureRow) : bool := Qltb 0 (SPI r).

Definition category (r : PressureRow) : string := Product_Category (wh r).

Definition same_category (row s : PressureRow) : bool :=
  String.eqb (category s) (category row).

(** The dictionary appended for a shortage row (a row of [iterrows]) and
    its donor (a row of [iloc]). *)
Definition recommendation (N : Numpy) (row donor : PressureRow)
  : TransferRecommendation :=
  let units := py_min (Qabs (SPI row)) (SPI donor) in
  let savings :=
    scalar_mul N units
      (scalar_sub N (Storage_Cost_per_Unit (wh donor))
         (Storage_Cost_per_Unit (wh row))) in
  {| rec_Product_Category := category row;
     From_Warehouse := Warehouse_ID (wh donor);
     From_Location := Location (wh donor);
     To_Warehouse := Warehouse_ID (wh row);
     To_Location := Location (wh row);
     Units := py_int units;
     Estimated_Saving_INR := np_round2 N savings;
     Donor_SPI := np_round2 N (SPI donor);
     Receiver_SPI := row_round2 N (SPI row) |}.

(** [same_cat.sort_values('SPI', ascending=False).iloc[0]], under the guard
    [not same_cat.empty]. *)
Definition select_donor (K : SortKind) (same_cat : list PressureRow)
  : option PressureRow :=
  match same_cat with
  | [] => None
  | first :: _ => Some (hd first (sort_values K SPI false same_cat))
  end.

(** One iteration of the loop over the shortage rows. *)
Definition recommend_step (N : Numpy) (K : SortKind) (surplus : list PressureRow)
    (recommendations : list TransferRecommendation) (row : PressureRow)
  : list TransferRecommendation :=
  let same_cat := List.filter (same_category row) surplus in
  match select_donor K same_cat with
  | Some donor => recommendations ++ [recommendation N row donor]
  | None => recommendations
  end.

Definition recommend_transfers (N : Numpy) (K : SortKind) (merged : list PressureRow)
  : list TransferRecommendation :=
  let shortages := List.filter is_shortage merged in
  let surplus := List.filter is_surplus merged in
  fold_left (recommend_step N K surplus) shortages [].

(** [optimize_transfers] ignores its distance matrix and delegates. *)
Definition optimize_transfers (N : Numpy) (K : SortKind) (merged : list PressureRow)
  : list TransferRecommendation :=
  recommend_transfers N K merged.

(** ** calculate_metrics *)

Record MetricsSummary : Type := {
  total_warehouses : nat;
  total_skus : nat;
  shortage_percentage : Q;
  average_spi : option Q;          (* [None] is NaN *)
  potential_cost_saving : Q;
  top_risk_categories : list (string * Q)
}.

(** [a / b] on Python integers: the float nearest to the quotient. *)
Definition py_truediv (a b : nat) : result Q :=
  if (b =? 0)%nat then Raise ZeroDivisionError
  else Ok (fdiv (inject_Z (Z.of_nat a)) (inject_Z (Z.of_nat b))).

(** [Series.mean()]: NaN on an empty column. *)
Definition mean (N : Numpy) (l : list Q) : option Q :=
  match l with
  | [] => None
  | _ => Some (series_mean N l)
  end.

Fixpoint insert_string (s : string) (l : list string) : list string :=
  match l with
  | [] => [s]
  | h :: t => if String.leb s h then s :: h :: t else h :: insert_string s t
  end.

Definition sort_strings (l : list string) : list string :=
  fold_right insert_string [] l.

Definition column_min (l : list Q) : Q :=
  match l with
  | [] => 0
  | x :: t => fold_left (fun m y => py_min m y) t x
  end.

(** [merged.groupby('Product_Category')['SPI'].min()]: one entry per
    category, the categories sorted. *)
Definition groupby_min (merged : list PressureRow) : list (string * Q) :=
  List.map
    (fun c => (c, column_min
                    (List.map SPI
                       (List.filter (fun r => String.eqb (category r) c) merged))))
    (sort_strings (remove_dups (List.map category merged))).

(** [total_savings]: the sum of a column of numpy scalars, or the Python
    integer 0. *)
Inductive savings : Type :=
| ColumnSum (s : Q)
| Zero.

(** [round(total_savings, 2)]: the integer 0 is returned as it is. *)
Definition round_savings (N : Numpy) (total_savings : savings) : Q :=
  match total_savings with
  | ColumnSum s => np_round2 N s
  | Zero => 0
  end.

Definition calculate_metrics (N : Numpy) (K : SortKind) (merged : list PressureRow)
  : result MetricsSummary :=
  let total_shortages := List.length (List.filter is_shortage merged) in
  let total_warehouses :=
    List.length (remove_dups (List.map (fun r => Warehouse_ID (wh r)) merged)) in
  let total_skus := List.length merged in
  let avg_spi := mean N (List.map SPI merged) in
  let recommendations := recommend_transfers N K merged in
  let total_savings :=
    match recommendations with
    | [] => Zero
    | _ => ColumnSum (series_sum N (List.map Estimated_Saving_INR recommendations))
    end in
  let risk_categories :=
    firstn 3 (sort_values K snd true (groupby_min merged)) in
  ratio ← py_truediv total_shortages total_skus;
  Ok {| total_warehouses := total_warehouses;
        total_skus := total_skus;
        shortage_percentage := py_round2 (fmul ratio 100);
        average_spi := option_map (np_round2 N) avg_spi;
        potential_cost_saving := round_savings N total_savings;
        top_risk_categories := risk_categories |}.

(** ** simulate_demand_change, simulate_cost_change *)

(** Drawing [n] distinct elements of [pool], the [k]-th draw decided by the
    [k]-th number of the random source. *)
Fixpoint draw (rand : nat -> nat) (k : nat) (pool : list nat) (n : nat) : list nat :=
  match n with
  | O => []
  | S n' =>
      match pool with
      | [] => []
      | p0 :: _ =>
          let j := (rand k mod List.length pool)%nat in
          nth j pool p0 :: draw rand (S k) (firstn j pool ++ skipn (S j) pool) n'
      end
  end.

(** numpy's [RandomState.choice(a, size, replace)] over the positions
    [0 .. a-1], reading the random source [rand]. *)
Definition choice (rand : nat -> nat) (a size : nat) (replace : bool)
  : result (list nat) :=
  if ((a =? 0) && negb (size =? 0))%nat then Raise ValueError
  else if replace then Ok (List.map (fun i => (rand i mod a)%nat) (seq 0 size))
  else if (a <? size)%nat then Raise ValueError
  else Ok (draw rand 0 (seq 0 a) size).

(** [DataFrame.sample(n=n, replace=replace)]. *)
Definition sample {A : Type} (rand : nat -> nat) (rows : list A) (n : nat)
    (replace : bool) : result (list A) :=
  indexer ← choice rand (List.length rows) n replace;
  Ok (take_rows rows indexer).

(** [demand_change_pct] is a float: in the arithmetic it is the binary64
    number nearest to the value given. In
    [int(num_orders * abs(demand_change_pct))] the number of rows is turned
    into a float, the product is the float product, and [int] truncates
    it. *)
Definition simulate_demand_change (rand : nat -> nat) (orders : list OrderRecord)
    (demand_change_pct : Q) : result (list OrderRecord) :=
  let orders_sim := orders in
  if negb (Qeq_bool demand_change_pct 0) then
    let num_orders := Z.of_nat (List.length orders_sim) in
    let change_amount :=
      py_int (fmul (fl (inject_Z num_orders)) (Qabs (fl demand_change_pct))) in
    if Qltb 0 demand_change_pct then
      additional_orders ←
        sample rand orders_sim (Z.to_nat (Z.min change_amount num_orders)) true;
      Ok (orders_sim ++ additional_orders)
    else
      sample rand orders_sim (Z.to_nat (Z.max (num_orders - change_amount) 1)) false
  else Ok orders_sim.

Definition set_Storage_Cost (w : WarehouseRecord) (c : Q) : WarehouseRecord :=
  {| Warehouse_ID := Warehouse_ID w;
     Location := Location w;
     Product_Category := Product_Category w;
     Current_Stock_Units := Current_Stock_Units w;
     Reorder_Level := Reorder_Level w;
     Storage_Cost_per_Unit := c |}.

(** [cost_change_pct] is a float: in the arithmetic it is the binary64
    number nearest to the value given. The column is multiplied as a float64
    column by the float [1 + cost_change_pct]. *)
Definition simulate_cost_change (warehouse : list WarehouseRecord)
    (cost_change_pct : Q) : list WarehouseRecord :=
  let warehouse_sim := warehouse in
  if negb (Qeq_bool cost_change_pct 0) then
    List.map (fun w => set_Storage_Cost w
                         (fmul (fl (Storage_Cost_per_Unit w))
                            (fadd 1 (fl cost_change_pct))))
      warehouse_sim
  else warehouse_sim.

(** ** validate_data *)

(** A cell of a table as read from a file. *)
Inductive cell : Type :=
| Num (q : Q)
| Text (s : string)
| NaN.

(** A raw table: its columns by name. *)
Abbreviation DataFrame := (gmap string (list cell)).

(** [x < k] on one cell: comparing text with a number is a [TypeError], a
    missing value compares false. *)
Definition cell_lt (k : Q) (c : cell) : result bool :=
  match c with
  | Num q => Ok (Qltb q k)
  | NaN => Ok false
  | Text _ => Raise TypeError
  end.

(** [(column < k).any()]. *)
Definition any_lt (column : list cell) (k : Q) : result bool :=
  flags ← mapM (cell_lt k) column;
  Ok (existsb id flags).

Definition has_column (df : DataFrame) (col : string) : bool :=
  bool_decide (is_Some (df !! col)).

Definition quote : string := String (ascii_of_nat 39) EmptyString.

(** The text of a list of column names inside an f-string. *)
Definition repr_list (l : list string) : string :=
  ("[" ++ String.concat ", " (List.map (fun s => quote ++ s ++ quote) l) ++ "]")%string.

Definition required_warehouse_cols : list string :=
  ["Warehouse_ID"; "Location"; "Product_Category";
   "Current_Stock_Units"; "Reorder_Level"; "Storage_Cost_per_Unit"].

Definition required_orders_cols : list string :=
  ["Order_ID"; "Order_Date"; "Origin"; "Product_Category"; "Order_Value_INR"].

Definition negative_check (df : DataFrame) (col message : string)
    (errors : list string) : result (list string) :=
  match df !! col with
  | Some column =>
      negative ← any_lt column 0;
      Ok (if negative : bool then errors ++ [message] else errors)
  | None => Ok errors
  end.

Definition validate_data (warehouse orders : DataFrame)
  : result (bool * list string) :=
  let errors := [] in
  let missing_warehouse_cols :=
    List.filter (fun col => negb (has_column warehouse col)) required_warehouse_cols in
  let errors :=
    match missing_warehouse_cols with
    | [] => errors
    | _ => errors ++ [("Missing warehouse columns: " ++ repr_list missing_warehouse_cols)%string]
    end in
  let missing_orders_cols :=
    List.filter (fun col => negb (has_column orders col)) required_orders_cols in
  let errors :=
    match missing_orders_cols with
    | [] => errors
    | _ => errors ++ [("Missing orders columns: " ++ repr_list missing_orders_cols)%string]
    end in
  errors ← negative_check warehouse "Current_Stock_Units"
             "Negative stock units found in warehouse data" errors;
  errors ← negative_check warehouse "Storage_Cost_per_Unit"
             "Negative storage costs found in warehouse data" errors;
  Ok ((List.length errors =? 0)%nat, errors).

(** ** The pipeline, as the dashboard runs it *)

Definition pipeline (to_datetime : Parser) (N : Numpy) (K : SortKind)
    (dtypes : WarehouseDtypes) (warehouse : list WarehouseRecord)
    (orders : list OrderRecord)
  : result (MetricsSummary * list TransferRecommendation) :=
  '(_, demand_data) ← calculate_demand to_datetime orders;
  let merged_data := compute_spi dtypes warehouse demand_data in
  let recommendations := recommend_transfers N K merged_data in
  metrics ← calculate_metrics N K merged_data;
  Ok (metrics, recommendations).

(** The label of the stock table of the dashboard:
    ['Surplus' if x > 0 else 'Shortage' if x < 0 else 'Balanced']. *)
Definition status (x : Q) : string :=
  if Qltb 0 x then "Surplus" else if Qltb x 0 then "Shortage" else "Balanced".

(** [main] of the dashboard after validation: the sliders are applied to
    the tables when they are not 0, the pipeline runs on the result, and the
    impact panel then computes its "original" metrics from the same
    variables [orders_data] and [warehouse_data]. The result is the metrics
    shown, the recommendations and the panel's "original" metrics. *)
Definition dashboard_run (to_datetime : Parser) (N : Numpy)
    (K : SortKind) (rand : nat -> nat) (dtypes : WarehouseDtypes)
    (warehouse_data : list WarehouseRecord) (orders_data : list OrderRecord)
    (demand_change cost_change : Q)
  : result (MetricsSummary * list TransferRecommendation * MetricsSummary) :=
  orders_data ←
    (if negb (Qeq_bool demand_change 0)
     then simulate_demand_change rand orders_data (fdiv demand_change 100)
     else Ok orders_data);
  let warehouse_data :=
    if negb (Qeq_bool cost_change 0)
    then simulate_cost_change warehouse_data (fdiv cost_change 100)
    else warehouse_data in
  '(orders_data, demand_data) ← calculate_demand to_datetime orders_data;
  let merged_data := compute_spi dtypes warehouse_data demand_data in
  let recommendations := recommend_transfers N K merged_data in
  metrics ← calculate_metrics N K merged_data;
  '(orders_data, original_demand) ← calculate_demand to_datetime orders_data;
  let original_merged := compute_spi dtypes warehouse_data original_demand in
  original_metrics ← calculate_metrics N K original_merged;
  Ok (metrics, recommendations, original_metrics).

(** ** A sort that meets [SortKind] *)

(** Insertion argsort: position [i] is placed in front of position [j] when
    [before] holds of their values. *)
Fixpoint insert_index (before : Q -> Q -> bool) (l : list Q) (i : nat)
    (sorted : list nat) : list nat :=
  match sorted with
  | [] => [i]
  | j :: t =>
      if before (nth i l 0) (nth j l 0) then i :: j :: t
      else j :: insert_index before l i t
  end.

Definition insertion_argsort (before : Q -> Q -> bool) (l : list Q) : list nat :=
  fold_right (insert_index before l) [] (seq 0 (List.length l)).

Section InsertionArgsort.

Variable before : Q -> Q -> bool.
Hypothesis before_le : forall x y, before x y = true -> x <= y.
Hypothesis not_before_ge : forall x y, before x y = false -> y <= x.

Lemma insert_index_perm (l : list Q) (i : nat) (sorted : list nat) :
  Permutation (insert_index before l i sorted) (i :: sorted).
Proof.
  induction sorted as [|j t IH]; simpl; [reflexivity|].
  destruct (before _ _); [reflexivity|].
  rewrite IH. apply perm_swap.
Qed.

Lemma insertion_argsort_perm (l : list Q) :
  Permutation (insertion_argsort before l) (seq 0 (List.length l)).
Proof.
  unfold insertion_argsort.
  induction (seq 0 (List.length l)) as [|i t IH]; simpl; [reflexivity|].
  rewrite insert_index_perm. now constructor.
Qed.

Lemma insert_index_sorted (l : list Q) (i : nat) (sorted : list nat) :
  StronglySorted Qle (List.map (fun i => nth i l 0) sorted) ->
  StronglySorted Qle (List.map (fun i => nth i l 0) (insert_index before l i sorted)).
Proof.
  induction sorted as [|j t IH]; simpl; intros Hs.
  - repeat constructor.
  - inversion Hs as [|? ? Ht Hall]; subst.
    destruct (before (nth i l 0) (nth j l 0)) eqn:Hb; simpl.
    + constructor; [exact Hs|].
      constructor; [now apply before_le|].
      eapply List.Forall_impl; [|exact Hall].
      intros y Hy. apply Qle_trans with (nth j l 0); [now apply before_le|exact Hy].
    + constructor; [now apply IH|].
      apply List.Forall_forall. intros y Hy.
      apply in_map_iff in Hy as (k & <- & Hk).
      apply (Permutation_in _ (insert_index_perm l i t)) in Hk.
      destruct Hk as [<-|Hk]; [now apply not_before_ge|].
      rewrite List.Forall_forall in Hall. apply Hall.
      apply in_map_iff. now exists k.
Qed.

Lemma insertion_argsort_sorted (l : list Q) :
  StronglySorted Qle (List.map (fun i => nth i l 0) (insertion_argsort before l)).
Proof.
  unfold insertion_argsort.
  induction (seq 0 (List.length l)) as [|i t IH]; simpl; [constructor|].
  now apply insert_index_sorted.
Qed.

End InsertionArgsort.

Lemma Qle_bool_le (x y : Q) : Qle_bool x y = true -> x <= y.
Proof. apply Qle_bool_iff. Qed.

Lemma Qle_bool_ge (x y : Q) : Qle_bool x y = false -> y <= x.
Proof.
  intros H. apply Qlt_le_weak, Qnot_le_lt. intros Hle.
  apply Qle_bool_iff in Hle. congruence.
Qed.

Lemma Qltb_lt (x y : Q) : Qltb x y = true <-> x < y.
Proof.
  unfold Qltb. rewrite Qlt_alt. destruct (Qcompare x y); split; congruence.
Qed.

Lemma Qltb_ge (x y : Q) : Qltb x y = false -> y <= x.
Proof.
  intros H. apply Qnot_lt_le. intros Hlt. apply Qltb_lt in Hlt. congruence.
Qed.

Lemma Qltb_le (x y : Q) : Qltb x y = true -> x <= y.
Proof. intros H. apply Qlt_le_weak. now apply Qltb_lt. Qed.

(** A stable sort ([kind='stable']): equal values keep their order. *)
Definition stable_sort : SortKind :=
  {| argsort := insertion_argsort Qle_bool;
     argsort_perm := insertion_argsort_perm Qle_bool;
     argsort_sorted := insertion_argsort_sorted Qle_bool Qle_bool_le Qle_bool_ge |}.

(** ** An arithmetic of scalars *)

(** The scalars are floats: every operation is rounded to binary64,
    [round(x, 2)] on a numpy scalar multiplies by 100, rounds to the nearest
    integer and divides by 100, and a column is added up from the first row
    to the last. *)
Definition float64_scalars : Numpy :=
  {| scalar_sub := fsub;
     scalar_mul := fmul;
     np_round2 := fun x => fdiv (inject_Z (py_round (fmul x 100))) 100;
     row_round2 := py_round2;
     series_mean := fun l =>
       fdiv (fold_left fadd l 0) (inject_Z (Z.of_nat (List.length l)));
     series_sum := fun l => fold_left fadd l 0 |}.

(** * Definitions used in the statements *)

(** The join condition: [Origin = Location] and equal [Product_Category]. *)
Definition matching_demand (w : WarehouseRecord) (d : DemandRow) : Prop :=
  demand_Origin d = Location w /\ demand_Product_Category d = Product_Category w.

(** The key of a demand row. *)
Definition demand_key (d : DemandRow) : group_key :=
  (demand_Origin d, demand_Product_Category d).

(** The two-warehouse scenario: Mumbai and Delhi hold Electronics, 200
    orders come from Mumbai and 10 from Delhi. *)
Definition sample_warehouse : list WarehouseRecord :=
  [ {| Warehouse_ID := "W001"; Location := "Mumbai";
       Product_Category := "Electronics"; Current_Stock_Units := 150;
       Reorder_Level := 50; Storage_Cost_per_Unit := 255 # 10 |};
    {| Warehouse_ID := "W002"; Location := "Delhi";
       Product_Category := "Electronics"; Current_Stock_Units := 80;
       Reorder_Level := 50; Storage_Cost_per_Unit := 30 |} ].

Definition sample_order (id origin : string) : OrderRecord :=
  {| Order_ID := id; Order_Date := DateText "2024-01-15"; Origin := Some origin;
     order_Product_Category := Some "Electronics"; Order_Value_INR := 1200 |}.

(** The sum of a list of numbers. *)
Definition Qsum (l : list Q) : Q := fold_left Qplus l 0.

(** Both stock columns hold integers. *)
Definition integer_stock : WarehouseDtypes :=
  {| Current_Stock_Units_dtype := int64; Reorder_Level_dtype := int64 |}.

(** Both stock columns hold floats. *)
Definition float_stock : WarehouseDtypes :=
  {| Current_Stock_Units_dtype := float64; Reorder_Level_dtype := float64 |}.

(** The rational that a binary64 number of the processor denotes, when it is
    finite. *)
Definition float_value (f : float) : option Q :=
  match Prim2SF f with
  | S754_zero _ => Some 0
  | S754_finite negative m e =>
      let v := inject_Z (Zpos m) * pow2 e in
      Some (if negative then - v else v)
  | _ => None
  end.

(** [a == b], a missing value being equal to nothing. *)
Definition denotes (a : option Q) (b : Q) : bool :=
  match a with
  | Some q => Qeq_bool q b
  | None => false
  end.

(** A row whose stock is the largest int64 and whose reorder level is -1. *)
Definition largest_stock : WarehouseRecord :=
  {| Warehouse_ID := "W001"; Location := "Mumbai";
     Product_Category := "Electronics";
     Current_Stock_Units := inject_Z (2 ^ 63 - 1);
     Reorder_Level := -1; Storage_Cost_per_Unit := 20 |}.

(** A row whose storage cost is 25.5. *)
Definition fractional_cost : WarehouseRecord :=
  {| Warehouse_ID := "W001"; Location := "Mumbai";
     Product_Category := "Electronics"; Current_Stock_Units := 150;
     Reorder_Level := 50; Storage_Cost_per_Unit := 255 # 10 |}.

(** A row whose stock is the float 1.1 and whose reorder level is the float
    0.2. *)
Definition fractional_stock : WarehouseRecord :=
  {| Warehouse_ID := "W001"; Location := "Mumbai";
     Product_Category := "Electronics";
     Current_Stock_Units := fl (11 # 10);
     Reorder_Level := fl (2 # 10); Storage_Cost_per_Unit := 20 |}.

Definition sample_orders : list OrderRecord :=
  repeat (sample_order "M" "Mumbai") 200 ++ repeat (sample_order "D" "Delhi") 10.

(** A parser that accepts every text. *)
Definition midnight_parser : Parser := fun _ _ => Some 0%Z.

(** The candidate donors of a shortage row: the surplus rows of its
    category, in the order of the table. *)
Definition candidates (merged : list PressureRow) (row : PressureRow)
  : list PressureRow :=
  List.filter (same_category row) (List.filter is_surplus merged).

(** What one shortage row contributes to the output. *)
Definition emitted (N : Numpy) (K : SortKind) (surplus : list PressureRow)
    (row : PressureRow) : list TransferRecommendation :=
  match select_donor K (List.filter (same_category row) surplus) with
  | Some donor => [recommendation N row donor]
  | None => []
  end.

(** The first row of maximal [SPI]: the donor that a stable descending sort
    puts first. *)
Fixpoint first_maximum (l : list PressureRow) : option PressureRow :=
  match l with
  | [] => None
  | r :: t =>
      match first_maximum t with
      | Some m => if Qltb (SPI r) (SPI m) then Some m else Some r
      | None => Some r
      end
  end.

(** A row of a pressure table with the given warehouse, category and SPI. *)
Definition pressure_row (id cat : string) (spi : Q) : PressureRow :=
  {| wh := {| Warehouse_ID := id; Location := "Pune"; Product_Category := cat;
              Current_Stock_Units := spi; Reorder_Level := 0;
              Storage_Cost_per_Unit := 20 |};
     merged_Origin := None;
     merged_Monthly_Demand := 0;
     SPI := spi |}.

(** One shortage row and two donors of the same surplus. *)
Definition tie_table : list PressureRow :=
  [ pressure_row "R" "Toys" (-5);
    pressure_row "A" "Toys" 9;
    pressure_row "B" "Toys" 9 ].

(** A table of 160 rows, 23 of them shortages. *)
Definition shortages_23_of_160 : list PressureRow :=
  repeat (pressure_row "S" "Toys" (-1)) 23 ++ repeat (pressure_row "D" "Toys" 1) 137.

(** A deficit of half a unit and a donor. *)
Definition half_unit_table : list PressureRow :=
  [ pressure_row "R" "Toys" (- (1 # 2)); pressure_row "D" "Toys" 8 ].

(** Two shortage rows and one donor whose surplus covers neither twice. *)
Definition shared_donor_table : list PressureRow :=
  [ pressure_row "R1" "Toys" (-10);
    pressure_row "R2" "Toys" (-10);
    pressure_row "D" "Toys" 15 ].

(** [i] may stand in front of [j] in a stable ascending order of [l]: its
    value is not larger, and it is smaller when [i] is the later position. *)
Definition stable_before (l : list Q) (i j : nat) : Prop :=
  nth i l 0 <= nth j l 0 /\ ((j < i)%nat -> nth i l 0 < nth j l 0).

(** A row of a table, the rows in front of it all of smaller [SPI] and the
    rows behind it none of larger [SPI]: the first-encountered maximum. *)
Definition first_encountered_maximum (rows : list PressureRow) (d : PressureRow)
  : Prop :=
  exists front back,
    rows = front ++ d :: back /\
    Forall (fun c => SPI c < SPI d) front /\
    Forall (fun c => SPI c <= SPI d) back.

(** The number of rows with [SPI < 0]. *)
Definition count_shortages (merged : list PressureRow) : nat :=
  List.length (List.filter is_shortage merged).

(** The message [msg] names the column [col]. *)
Definition mentions (msg col : string) : Prop :=
  exists pre post, msg = (pre ++ col ++ post)%string.

(** A column that holds numbers and missing values only. *)
Definition numeric (column : list cell) : Prop :=
  Forall (fun c => forall s, c <> Text s) column.

Definition numeric_column (df : DataFrame) (col : string) : Prop :=
  forall column, df !! col = Some column -> numeric column.

Definition has_negative (df : DataFrame) (col : string) : Prop :=
  exists column q, df !! col = Some column /\ In (Num q) column /\ q < 0.

Definition negative_cell (c : cell) : bool :=
  match c with
  | Num q => Qltb q 0
  | _ => false
  end.

Definition has_negative_b (df : DataFrame) (col : string) : bool :=
  match df !! col with
  | Some column => existsb negative_cell column
  | None => false
  end.

Definition negative_stock_message : string :=
  "Negative stock units found in warehouse data".
Definition negative_cost_message : string :=
  "Negative storage costs found in warehouse data".

(** The required columns that a table lacks, and the message about them. *)
Definition missing_columns (df : DataFrame) (required : list string) : list string :=
  List.filter (fun col => negb (has_column df col)) required.

Definition missing_report (header : string) (missing : list string) : list string :=
  match missing with
  | [] => []
  | _ => [(header ++ repr_list missing)%string]
  end.

(** The error list of [validate_data] when the two checked columns are
    numeric: the four checks, each adding its message or nothing. *)
Definition reported_errors (warehouse orders : DataFrame) : list string :=
  missing_report "Missing warehouse columns: "
    (missing_columns warehouse required_warehouse_cols)
  ++ missing_report "Missing orders columns: "
       (missing_columns orders required_orders_cols)
  ++ (if has_negative_b warehouse "Current_Stock_Units"
      then [negative_stock_message] else [])
  ++ (if has_negative_b warehouse "Storage_Cost_per_Unit"
      then [negative_cost_message] else []).

(** One-row tables as read from a file. *)
Definition text_column (s : string) : list cell := [Text s].

Definition orders_frame : DataFrame :=
  list_to_map
    [ ("Order_ID", text_column "O1"); ("Order_Date", text_column "2024-01-15");
      ("Origin", text_column "Mumbai");
      ("Product_Category", text_column "Electronics");
      ("Order_Value_INR", [Num 1200]) ].

(** A warehouse table without [Reorder_Level] whose stock is -5. *)
Definition warehouse_missing_reorder : DataFrame :=
  list_to_map
    [ ("Warehouse_ID", text_column "W001"); ("Location", text_column "Mumbai");
      ("Product_Category", text_column "Electronics");
      ("Current_Stock_Units", [Num (-5)]);
      ("Storage_Cost_per_Unit", [Num (51 # 2)]) ].

(** A complete warehouse table whose stock column holds text. *)
Definition warehouse_text_stock : DataFrame :=
  list_to_map
    [ ("Warehouse_ID", text_column "W001"); ("Location", text_column "Mumbai");
      ("Product_Category", text_column "Electronics");
      ("Current_Stock_Units", text_column "abc");
      ("Reorder_Level", [Num 50]);
      ("Storage_Cost_per_Unit", [Num (51 # 2)]) ].

(** Three orders and a fixed random source. *)
Definition three_orders : list OrderRecord :=
  [sample_order "O1" "Mumbai"; sample_order "O2" "Delhi"; sample_order "O3" "Pune"].

Definition counting_source (i : nat) : nat := (7 * i + 3)%nat.

(** Three orders, the last of which has no [Origin]. *)
Definition orders_one_without_origin : list OrderRecord :=
  [ sample_order "O1" "Mumbai"; sample_order "O2" "Delhi";
    {| Order_ID := "O3"; Order_Date := DateText "2024-01-15"; Origin := None;
       order_Product_Category := Some "Electronics"; Order_Value_INR := 1200 |} ].

(** Neither grouping column of the order is missing. *)
Definition keyed (o : OrderRecord) : bool :=
  match order_key o with
  | Some _ => true
  | None => false
  end.

(** The number of rows that [simulate_demand_change] adds or removes:
    [int(num_orders * abs(demand_change_pct))], the float product truncated. *)
Definition change_amount (orders : list OrderRecord) (pct : Q) : Z :=
  py_int (fmul (fl (inject_Z (Z.of_nat (List.length orders)))) (Qabs (fl pct))).

(** The row counts that rounding [|pct| * N] would give. *)
Definition rounded_growth (orders : list OrderRecord) (pct : Q) : Z :=
  let N := Z.of_nat (List.length orders) in
  (N + py_round (Qabs pct * inject_Z N))%Z.

Definition rounded_shrink (orders : list OrderRecord) (pct : Q) : Z :=
  let N := Z.of_nat (List.length orders) in
  Z.max (N - py_round (Qabs pct * inject_Z N)) 1.

(** [o'] is [o] with its date replaced by the timestamp parsed from it. *)
Definition parsed_row (parse : string -> option Z) (o o' : OrderRecord) : Prop :=
  exists ns,
    o' = set_Order_Date o (Timestamp ns) /\
    match Order_Date o with
    | DateText s => parse s = Some ns
    | Timestamp t => ns = t
    end.

(** The number of demand rows that a warehouse row is joined with. *)
Definition match_count (demand : list DemandRow) (w : WarehouseRecord) : nat :=
  List.length (List.filter (demand_matches w) demand).

(** A pressure row with another storage cost. *)
Definition with_cost (c : WarehouseRecord -> Q) (r : PressureRow) : PressureRow :=
  {| wh := set_Storage_Cost (wh r) (c (wh r));
     merged_Origin := merged_Origin r;
     merged_Monthly_Demand := merged_Monthly_Demand r;
     SPI := SPI r |}.

(** A recommendation without its [Estimated_Saving_INR]. *)
Definition route (r : TransferRecommendation)
  : string * string * string * string * string * Z * Q * Q :=
  (rec_Product_Category r, From_Warehouse r, From_Location r,
   To_Warehouse r, To_Location r, Units r, Donor_SPI r, Receiver_SPI r).

(** The shortage row has a surplus row of its category. *)
Definition has_candidate (merged : list PressureRow) (row : PressureRow) : bool :=
  match candidates merged row with
  | [] => false
  | _ => true
  end.

(** The receiver named by a recommendation, and the same of a table row. *)
Definition receiver_of (r : TransferRecommendation) : string * string * string :=
  (To_Warehouse r, To_Location r, rec_Product_Category r).

Definition receiver_row (row : PressureRow) : string * string * string :=
  (Warehouse_ID (wh row), Location (wh row), category row).

(** The stock table does not label the row [Balanced]. *)
Definition not_balanced (r : PressureRow) : bool :=
  negb (String.eqb (status (SPI r)) "Balanced").



(** What [simulate_cost_change] makes of one row when [pct] is not 0: the
    cost is the float product of the cost and of the float sum [1 + pct],
    cost and [pct] taken as floats. *)
Definition cost_changed (pct : Q) (w w' : WarehouseRecord) : Prop :=
  w' = set_Storage_Cost w (Storage_Cost_per_Unit w') /\
  Storage_Cost_per_Unit w'
  = fmul (fl (Storage_Cost_per_Unit w)) (fadd 1 (fl pct)) /\
  (-1 <= pct -> 0 <= Storage_Cost_per_Unit w -> 0 <= Storage_Cost_per_Unit w') /\
  (pct <= -1 -> 0 <= Storage_Cost_per_Unit w -> Storage_Cost_per_Unit w' <= 0).

(** The positions that [simulate_demand_change] samples for a growth. *)
Definition growth_indexer (rand : nat -> nat) (orders : list OrderRecord) (pct : Q)
  : list nat :=
  let N := Z.of_nat (List.length orders) in
  let change := change_amount orders pct in
  List.map (fun i => (rand i mod List.length orders)%nat)
    (seq 0 (Z.to_nat (Z.min change N))).

(** The positions that [simulate_demand_change] samples for a decline. *)
Definition shrink_indexer (rand : nat -> nat) (orders : list OrderRecord) (pct : Q)
  : list nat :=
  let N := Z.of_nat (List.length orders) in
  let change := change_amount orders pct in
  draw rand 0 (seq 0 (List.length orders)) (Z.to_nat (Z.max (N - change) 1)).

(** The column exists and holds text in some cell. *)
Definition has_text (df : DataFrame) (col : string) : Prop :=
  exists column s, df !! col = Some column /\ In (Text s) column.

(** The same, decided. *)
Definition is_text (c : cell) : bool :=
  match c with
  | Text _ => true
  | _ => false
  end.

Definition has_text_b (df : DataFrame) (col : string) : bool :=
  match df !! col with
  | Some column => existsb is_text column
  | None => false
  end.

(** The table has every required column. *)
Definition all_present (df : DataFrame) (required : list string) : Prop :=
  forall col, In col required -> df !! col <> None.

(** Two tables have the same columns among the required ones. *)
Definition same_columns (required : list string) (df df' : DataFrame) : Prop :=
  forall col, In col required -> (df !! col = None <-> df' !! col = None).

(** The table [warehouse_missing_reorder] with other text in [Location] and
    an orders table whose values are all missing. *)
Definition warehouse_other_location : DataFrame :=
  <["Location" := [Text "Chennai"; NaN]]> warehouse_missing_reorder.

Definition orders_all_missing : DataFrame :=
  list_to_map
    [ ("Order_ID", [NaN]); ("Order_Date", [NaN]); ("Origin", [NaN]);
      ("Product_Category", [NaN]); ("Order_Value_INR", [Text "n/a"]) ].

(** The number of orders from the location and of the category of a
    warehouse row. *)
Definition orders_at (orders : list OrderRecord) (w : WarehouseRecord) : nat :=
  group_size (Location w, Product_Category w) orders.

(** The dtype of [Monthly_Demand] in the pressure table made from these
    orders: int64 when every warehouse row has an order, float64 when some
    row has none. *)
Definition demand_dtype_of (orders : list OrderRecord)
    (warehouse : list WarehouseRecord) : dtype :=
  if forallb (fun w => negb (orders_at orders w =? 0)%nat) warehouse
  then int64 else float64.

(** * Properties *)

(** ** Rounding to the nearest even and binary64 *)

Lemma py_round_comp (x y : Q) : x == y -> py_round x = py_round y.
Proof.
  intros E. unfold py_round.
  assert (F : Qfloor x = Qfloor y) by (apply Qfloor_comp; exact E).
  rewrite F.
  assert (C : Qcompare (x - inject_Z (Qfloor y)) (1 # 2)
              = Qcompare (y - inject_Z (Qfloor y)) (1 # 2)).
  { apply Qcompare_comp; [rewrite E; reflexivity | reflexivity]. }
  rewrite C. reflexivity.
Qed.

Lemma py_round_near (x : Q) :
  inject_Z (py_round x) - (1 # 2) <= x /\ x <= inject_Z (py_round x) + (1 # 2).
Proof.
  unfold py_round.
  pose proof (Qfloor_le x) as L. pose proof (Qlt_floor x) as U.
  rewrite inject_Z_plus in U.
  set (f := Qfloor x) in *. clearbody f.
  assert (A : inject_Z f - (1 # 2) <= x).
  { apply Qle_trans with (inject_Z f); [|exact L].
    rewrite <- (Qplus_0_r (inject_Z f)) at 2.
    unfold Qminus. apply Qplus_le_r. discriminate. }
  assert (B : x <= inject_Z (f + 1) + (1 # 2)).
  { rewrite inject_Z_plus. apply Qlt_le_weak. apply Qlt_le_trans with (1 := U).
    rewrite <- Qplus_assoc. apply Qplus_le_r. discriminate. }
  assert (S : forall c : unit, x - inject_Z f + inject_Z f == x) by (intros; ring).
  destruct (Qcompare (x - inject_Z f) (1 # 2)) eqn:C.
  - apply Qeq_alt in C.
    assert (E : x == inject_Z f + (1 # 2)) by (rewrite <- C; ring).
    destruct (Z.even f); split; try assumption.
    + apply Qle_lteq. right. exact E.
    + apply Qle_lteq. right. rewrite E, inject_Z_plus. ring.
  - apply Qlt_alt in C. split; [exact A|].
    apply Qlt_le_weak.
    apply (Qplus_lt_l _ _ (inject_Z f)) in C.
    rewrite (S tt) in C. rewrite (Qplus_comm (inject_Z f)). exact C.
  - apply Qgt_alt in C. split; [|exact B].
    apply Qlt_le_weak.
    apply (Qplus_lt_l _ _ (inject_Z f)) in C.
    rewrite (S tt) in C.
    assert (E2 : inject_Z (f + 1) - (1 # 2) == (1 # 2) + inject_Z f)
      by (rewrite inject_Z_plus; ring).
    rewrite E2. exact C.
Qed.

Lemma py_round_monotone (x y : Q) : x <= y -> (py_round x <= py_round y)%Z.
Proof.
  intros H.
  destruct (py_round_near x) as [Lx Ux], (py_round_near y) as [Ly Uy].
  destruct (Z_le_gt_dec (py_round x) (py_round y)) as [|G]; [assumption|].
  exfalso.
  assert (G' : (py_round y + 1 <= py_round x)%Z) by lia.
  rewrite Zle_Qle, inject_Z_plus in G'.
  assert (A : x == inject_Z (py_round y) + (1 # 2)).
  { apply Qle_antisym.
    - apply Qle_trans with (1 := H). exact Uy.
    - apply Qle_trans with (2 := Lx).
      apply (Qplus_le_l _ _ (1 # 2)).
      assert (E1 : inject_Z (py_round x) - (1 # 2) + (1 # 2)
                   == inject_Z (py_round x)) by ring.
      assert (E2 : inject_Z (py_round y) + (1 # 2) + (1 # 2)
                   == inject_Z (py_round y) + inject_Z 1) by ring.
      rewrite E1, E2. exact G'. }
  assert (B : x == y).
  { apply Qle_antisym; [exact H|]. rewrite A. exact Uy. }
  apply py_round_comp in B. lia.
Qed.

Lemma py_round_inject_Z (z : Z) : py_round (inject_Z z) = z.
Proof.
  destruct (py_round_near (inject_Z z)) as [L U].
  set (r := py_round (inject_Z z)) in *. clearbody r.
  unfold Qle, Qminus, Qplus, Qopp, inject_Z in L, U. cbn in L, U. lia.
Qed.

Lemma pow2_nonneg_exp (p : Z) : (0 <= p)%Z -> pow2 p = inject_Z (2 ^ p).
Proof. intros H. unfold pow2. apply Z.leb_le in H. rewrite H. reflexivity. Qed.

Lemma pow2_pos (p : Z) : 0 < pow2 p.
Proof.
  unfold pow2. destruct (0 <=? p)%Z eqn:E.
  - apply Z.leb_le in E. change 0 with (inject_Z 0). rewrite <- Zlt_Qlt.
    apply Z.pow_pos_nonneg; lia.
  - reflexivity.
Qed.

Lemma pow2_neg_exp (p : Z) : (p < 0)%Z -> pow2 p * inject_Z (2 ^ (- p)) == 1.
Proof.
  intros H. unfold pow2.
  destruct (0 <=? p)%Z eqn:E; [apply Z.leb_le in E; lia|].
  assert (P : (0 < 2 ^ (- p))%Z) by (apply Z.pow_pos_nonneg; lia).
  unfold Qeq, Qmult, inject_Z. cbn [Qnum Qden].
  rewrite Pos.mul_1_r, Z2Pos.id by exact P. lia.
Qed.

Lemma pow2_add (a b : Z) : pow2 (a + b) == pow2 a * pow2 b.
Proof.
  assert (G : forall a b, (0 <= a)%Z -> (b < 0)%Z -> pow2 (a + b) == pow2 a * pow2 b).
  { clear. intros a b Ha Hb.
    pose proof (pow2_neg_exp b Hb) as Nb.
    pose proof (pow2_pos b) as Pb.
    assert (Qb : ~ inject_Z (2 ^ (- b)) == 0).
    { change 0 with (inject_Z 0). rewrite inject_Z_injective.
      assert (0 < 2 ^ (- b))%Z by (apply Z.pow_pos_nonneg; lia). lia. }
    apply (Qmult_inj_r _ _ (inject_Z (2 ^ (- b)))); [exact Qb|].
    rewrite <- Qmult_assoc, Nb, Qmult_1_r.
    rewrite (pow2_nonneg_exp a Ha).
    destruct (Z_le_gt_dec 0 (a + b)) as [S|S].
    - rewrite (pow2_nonneg_exp _ S), <- inject_Z_mult, inject_Z_injective.
      rewrite <- Z.pow_add_r by lia. f_equal. lia.
    - pose proof (pow2_neg_exp (a + b) ltac:(lia)) as Nab.
      assert (E : (2 ^ (- b) = 2 ^ (- (a + b)) * 2 ^ a)%Z).
      { rewrite <- Z.pow_add_r by lia. f_equal. lia. }
      rewrite E, inject_Z_mult, Qmult_assoc, Nab. ring. }
  destruct (Z_le_gt_dec 0 a) as [Ha|Ha], (Z_le_gt_dec 0 b) as [Hb|Hb].
  - rewrite !pow2_nonneg_exp by lia.
    rewrite <- inject_Z_mult, inject_Z_injective. apply Z.pow_add_r; lia.
  - apply G; lia.
  - rewrite Z.add_comm, Qmult_comm. apply G; lia.
  - pose proof (pow2_neg_exp a ltac:(lia)) as Na.
    pose proof (pow2_neg_exp b ltac:(lia)) as Nb.
    pose proof (pow2_neg_exp (a + b) ltac:(lia)) as Nab.
    assert (Qab : ~ inject_Z (2 ^ (- (a + b))) == 0).
    { change 0 with (inject_Z 0). rewrite inject_Z_injective.
      assert (0 < 2 ^ (- (a + b)))%Z by (apply Z.pow_pos_nonneg; lia). lia. }
    apply (Qmult_inj_r _ _ (inject_Z (2 ^ (- (a + b))))); [exact Qab|].
    rewrite Nab.
    assert (E : (2 ^ (- (a + b)) = 2 ^ (- a) * 2 ^ (- b))%Z).
    { rewrite <- Z.pow_add_r by lia. f_equal. lia. }
    rewrite E, inject_Z_mult.
    assert (R : pow2 a * pow2 b * (inject_Z (2 ^ (- a)) * inject_Z (2 ^ (- b)))
                == (pow2 a * inject_Z (2 ^ (- a))) * (pow2 b * inject_Z (2 ^ (- b))))
      by ring.
    rewrite R, Na, Nb. reflexivity.
Qed.

Lemma pow2_le (a b : Z) : (a <= b)%Z -> pow2 a <= pow2 b.
Proof.
  intros H.
  assert (E : pow2 b == pow2 a * pow2 (b - a)).
  { rewrite <- pow2_add. replace (a + (b - a))%Z with b by lia. reflexivity. }
  rewrite E. rewrite <- (Qmult_1_r (pow2 a)) at 1.
  apply Qmult_le_l; [apply pow2_pos|].
  rewrite pow2_nonneg_exp by lia.
  change 1 with (inject_Z 1). rewrite <- Zle_Qle.
  assert (0 < 2 ^ (b - a))%Z by (apply Z.pow_pos_nonneg; lia). lia.
Qed.

Lemma pow2_lt_inv (a b : Z) : pow2 a < pow2 b -> (a < b)%Z.
Proof.
  intros H. destruct (Z_lt_le_dec a b) as [|G]; [assumption|].
  apply pow2_le in G. exfalso. apply (Qlt_not_le _ _ H G).
Qed.

Lemma pow2_multiple (p e : Z) :
  (p <= e)%Z -> pow2 e == inject_Z (2 ^ (e - p)) * pow2 p.
Proof.
  intros H. rewrite <- (pow2_nonneg_exp (e - p)) by lia.
  rewrite <- pow2_add. replace (e - p + p)%Z with e by lia. reflexivity.
Qed.

Lemma Q_num_den (x : Q) : x * inject_Z (Zpos (Qden x)) == inject_Z (Qnum x).
Proof. destruct x as [n d]. unfold Qeq, Qmult, inject_Z. cbn. lia. Qed.

Lemma exponent_spec (x : Q) :
  0 < x -> pow2 (exponent x) <= x /\ x < pow2 (exponent x + 1).
Proof.
  intros Hx.
  assert (Hn : (0 < Qnum x)%Z).
  { destruct x as [n d]. unfold Qlt in Hx. cbn in Hx. cbn. lia. }
  pose proof (Q_num_den x) as ND.
  set (n := Qnum x) in *. set (d := Zpos (Qden x)) in *.
  assert (Hd : (0 < d)%Z) by (subst d; lia).
  destruct (Z.log2_spec n Hn) as [An Bn].
  destruct (Z.log2_spec d Hd) as [Ad Bd].
  pose proof (Z.log2_nonneg n) as Nn. pose proof (Z.log2_nonneg d) as Nd.
  set (a := Z.log2 n) in *. set (b := Z.log2 d) in *.
  assert (U : x < pow2 (a - b + 1)).
  { apply (Qmult_lt_r _ _ (pow2 b)); [apply pow2_pos|].
    rewrite <- pow2_add. replace (a - b + 1 + b)%Z with (Z.succ a) by lia.
    apply Qle_lt_trans with (x * inject_Z d).
    - apply Qmult_le_l; [exact Hx|].
      rewrite pow2_nonneg_exp by lia. rewrite <- Zle_Qle. exact Ad.
    - rewrite ND, pow2_nonneg_exp by lia. rewrite <- Zlt_Qlt. exact Bn. }
  assert (L : pow2 (a - b - 1) < x).
  { apply (Qmult_lt_r _ _ (pow2 (Z.succ b))); [apply pow2_pos|].
    rewrite <- pow2_add. replace (a - b - 1 + Z.succ b)%Z with a by lia.
    apply Qle_lt_trans with (x * inject_Z d).
    - rewrite ND, pow2_nonneg_exp by lia. rewrite <- Zle_Qle. exact An.
    - apply Qmult_lt_l; [exact Hx|].
      rewrite pow2_nonneg_exp by lia. rewrite <- Zlt_Qlt. exact Bd. }
  unfold exponent. fold n d a b.
  destruct (Qle_bool (pow2 (a - b)) x) eqn:C.
  - apply Qle_bool_iff in C. split; assumption.
  - split; [apply Qlt_le_weak; exact L|].
    replace (a - b - 1 + 1)%Z with (a - b)%Z by lia.
    apply Qnot_le_lt. intros G. apply Qle_bool_iff in G. congruence.
Qed.

Lemma exponent_unique (x : Q) (e : Z) :
  pow2 e <= x -> x < pow2 (e + 1) -> exponent x = e.
Proof.
  intros L U.
  assert (Hx : 0 < x) by (apply Qlt_le_trans with (2 := L); apply pow2_pos).
  destruct (exponent_spec x Hx) as [L' U'].
  assert (A : (e < exponent x + 1)%Z).
  { apply pow2_lt_inv. apply Qle_lt_trans with (1 := L). exact U'. }
  assert (B : (exponent x < e + 1)%Z).
  { apply pow2_lt_inv. apply Qle_lt_trans with (1 := L'). exact U. }
  lia.
Qed.

Lemma exponent_monotone (x y : Q) :
  0 < x -> x <= y -> (exponent x <= exponent y)%Z.
Proof.
  intros Hx H.
  assert (Hy : 0 < y) by (apply Qlt_le_trans with (1 := Hx); exact H).
  destruct (exponent_spec x Hx) as [Lx Ux], (exponent_spec y Hy) as [Ly Uy].
  assert (A : (exponent x < exponent y + 1)%Z).
  { apply pow2_lt_inv. apply Qle_lt_trans with (1 := Lx).
    apply Qle_lt_trans with (1 := H). exact Uy. }
  lia.
Qed.

Lemma round_at_monotone (p : Z) (x y : Q) :
  x <= y -> round_at p x <= round_at p y.
Proof.
  intros H. unfold round_at.
  apply Qmult_le_compat_r; [|apply Qlt_le_weak, pow2_pos].
  rewrite <- Zle_Qle. apply py_round_monotone.
  unfold Qdiv. apply Qmult_le_compat_r; [exact H|].
  apply Qlt_le_weak, Qinv_lt_0_compat, pow2_pos.
Qed.

Lemma round_at_multiple (p : Z) (k : Z) (x : Q) :
  x == inject_Z k * pow2 p -> round_at p x == x.
Proof.
  intros E. unfold round_at.
  assert (D : x / pow2 p == inject_Z k).
  { rewrite E. apply Qdiv_mult_l.
    intros Z0. pose proof (pow2_pos p) as P. rewrite Z0 in P. discriminate. }
  rewrite (py_round_comp _ _ D), py_round_inject_Z, E. reflexivity.
Qed.

Lemma round_at_pow2 (p e : Z) : (p <= e)%Z -> round_at p (pow2 e) == pow2 e.
Proof.
  intros H. apply (round_at_multiple p (2 ^ (e - p))). apply pow2_multiple, H.
Qed.

Lemma round_at_0 (p : Z) : round_at p 0 == 0.
Proof. apply (round_at_multiple p 0). ring. Qed.

Lemma ulp_exponent_le (x : Q) : (ulp_exponent x <= Z.max (exponent x) (-1074))%Z.
Proof. unfold ulp_exponent. lia. Qed.

(** Rounding to the precision of one's own binade is monotone over the
    positive numbers: between two binades stands a power of two, which
    both precisions keep. *)
Lemma round_binade_monotone (x y : Q) :
  0 < x -> x <= y ->
  round_at (ulp_exponent x) x <= round_at (ulp_exponent y) y.
Proof.
  intros Hx H.
  assert (Hy : 0 < y) by (apply Qlt_le_trans with (1 := Hx); exact H).
  pose proof (exponent_monotone x y Hx H) as M.
  destruct (exponent_spec x Hx) as [Lx Ux], (exponent_spec y Hy) as [Ly Uy].
  destruct (Z.eq_dec (ulp_exponent x) (ulp_exponent y)) as [E|N].
  - rewrite E. apply round_at_monotone, H.
  - unfold ulp_exponent in *.
    set (ex := exponent x) in *. set (ey := exponent y) in *.
    set (px := Z.max (ex - 52) (-1074)) in *.
    set (py := Z.max (ey - 52) (-1074)) in *.
    set (b := Z.max (ex + 1) px).
    apply Qle_trans with (pow2 b).
    + rewrite <- (round_at_pow2 px b) by (subst b; lia).
      apply round_at_monotone. apply Qlt_le_weak.
      apply Qlt_le_trans with (1 := Ux). apply pow2_le. subst b. lia.
    + apply Qle_trans with (pow2 ey).
      * apply pow2_le. subst b px py. lia.
      * rewrite <- (round_at_pow2 py ey) by (subst py; lia).
        apply round_at_monotone. exact Ly.
Qed.

Lemma round_binade_nonneg (x : Q) : 0 <= x -> 0 <= round_at (ulp_exponent x) x.
Proof.
  intros H. rewrite <- (round_at_0 (ulp_exponent x)).
  apply round_at_monotone, H.
Qed.

Lemma fl_comp (x y : Q) : x == y -> fl x = fl y.
Proof. intros E. unfold fl. rewrite (Qred_complete _ _ E). reflexivity. Qed.

Lemma fl_0 : fl 0 = 0.
Proof. reflexivity. Qed.

Lemma fl_pos (x : Q) : 0 < x -> fl x = round_at (ulp_exponent (Qred x)) (Qred x).
Proof.
  intros H. unfold fl.
  assert (C : Qcompare (Qred x) 0 = Gt).
  { apply Qgt_alt. rewrite Qred_correct. exact H. }
  rewrite C. reflexivity.
Qed.

Lemma fl_neg (x : Q) :
  x < 0 -> fl x = - round_at (ulp_exponent (- Qred x)) (- Qred x).
Proof.
  intros H. unfold fl.
  assert (C : Qcompare (Qred x) 0 = Lt).
  { apply Qlt_alt. rewrite Qred_correct. exact H. }
  rewrite C. reflexivity.
Qed.

Lemma fl_nonneg (x : Q) : 0 <= x -> 0 <= fl x.
Proof.
  intros H. apply Qle_lteq in H. destruct H as [H|H].
  - rewrite (fl_pos x H). apply round_binade_nonneg.
    rewrite Qred_correct. apply Qlt_le_weak, H.
  - rewrite <- (fl_comp _ _ H). apply Qle_refl.
Qed.

Lemma fl_nonpos (x : Q) : x <= 0 -> fl x <= 0.
Proof.
  intros H. apply Qle_lteq in H. destruct H as [H|H].
  - rewrite (fl_neg x H).
    assert (P : 0 <= round_at (ulp_exponent (- Qred x)) (- Qred x)).
    { apply round_binade_nonneg. rewrite Qred_correct.
      apply Qlt_le_weak. apply (Qopp_lt_compat x 0) in H. exact H. }
    apply (Qopp_le_compat 0 _) in P. exact P.
  - rewrite (fl_comp _ _ H). apply Qle_refl.
Qed.

(** Rounding to binary64 is monotone. *)
Lemma fl_monotone (x y : Q) : x <= y -> fl x <= fl y.
Proof.
  intros H.
  destruct (Qlt_le_dec 0 x) as [Px|Nx].
  - assert (Py : 0 < y) by (apply Qlt_le_trans with (1 := Px); exact H).
    rewrite (fl_pos x Px), (fl_pos y Py).
    apply round_binade_monotone; rewrite !Qred_correct; assumption.
  - destruct (Qlt_le_dec y 0) as [Ny|Py].
    + assert (Nx' : x < 0) by (apply Qle_lt_trans with (1 := H); exact Ny).
      rewrite (fl_neg x Nx'), (fl_neg y Ny).
      apply Qopp_le_compat.
      apply round_binade_monotone.
      * rewrite Qred_correct. apply (Qopp_lt_compat y 0) in Ny. exact Ny.
      * rewrite !Qred_correct. apply Qopp_le_compat, H.
    + apply Qle_trans with 0; [apply fl_nonpos, Nx | apply fl_nonneg, Py].
Qed.

Lemma exponent_comp (x y : Q) : 0 < x -> x == y -> exponent x = exponent y.
Proof.
  intros Hx E. symmetry.
  destruct (exponent_spec x Hx) as [L U].
  apply exponent_unique; rewrite <- E; assumption.
Qed.

Lemma round_at_comp (p : Z) (x y : Q) : x == y -> round_at p x = round_at p y.
Proof.
  intros E. unfold round_at. f_equal. f_equal.
  apply py_round_comp. rewrite E. reflexivity.
Qed.

Lemma fl_pos_eq (x : Q) : 0 < x -> fl x = round_at (ulp_exponent x) x.
Proof.
  intros H. rewrite (fl_pos x H). unfold ulp_exponent.
  assert (H' : 0 < Qred x) by (rewrite Qred_correct; exact H).
  rewrite (exponent_comp (Qred x) x H' (Qred_correct x)).
  apply round_at_comp, Qred_correct.
Qed.

Lemma fl_opp (x : Q) : fl (- x) == - fl x.
Proof.
  destruct (Qlt_le_dec 0 x) as [P|N].
  - assert (N : - x < 0) by (apply (Qopp_lt_compat 0 x) in P; exact P).
    rewrite (fl_neg _ N), (fl_pos _ P).
    assert (E : - Qred (- x) == Qred x).
    { rewrite !Qred_correct. ring. }
    assert (H' : 0 < - Qred (- x)) by (rewrite E, Qred_correct; exact P).
    unfold ulp_exponent.
    rewrite (exponent_comp _ _ H' E), (round_at_comp _ _ _ E). reflexivity.
  - apply Qle_lteq in N. destruct N as [N|N].
    + assert (P : 0 < - x) by (apply (Qopp_lt_compat x 0) in N; exact N).
      rewrite (fl_neg _ N), (fl_pos _ P).
      assert (E : Qred (- x) == - Qred x).
      { rewrite !Qred_correct. reflexivity. }
      assert (H' : 0 < Qred (- x)) by (rewrite Qred_correct; exact P).
      unfold ulp_exponent.
      rewrite (exponent_comp _ _ H' E), (round_at_comp _ _ _ E).
      rewrite Qopp_involutive. reflexivity.
    + assert (E1 : - x == 0) by (rewrite N; reflexivity).
      rewrite (fl_comp _ _ E1), (fl_comp _ _ N). reflexivity.
Qed.

(** The integers up to [2^53] are binary64 numbers. *)
Lemma fl_inject_Z (z : Z) :
  (Z.abs z <= 2 ^ 53)%Z -> fl (inject_Z z) == inject_Z z.
Proof.
  assert (P : forall z, (0 < z <= 2 ^ 53)%Z ->
                round_at (ulp_exponent (inject_Z z)) (inject_Z z) == inject_Z z).
  { clear. intros z [Hz Bz].
    assert (Hq : 0 < inject_Z z).
    { change 0 with (inject_Z 0). rewrite <- Zlt_Qlt. exact Hz. }
    destruct (exponent_spec _ Hq) as [L U].
    set (e := exponent (inject_Z z)) in *.
    assert (E53 : (e <= 53)%Z).
    { destruct (Z_le_gt_dec e 53) as [|G]; [assumption|]. exfalso.
      assert (A : pow2 54 <= inject_Z z).
      { apply Qle_trans with (2 := L). apply pow2_le. lia. }
      rewrite pow2_nonneg_exp in A by lia. rewrite <- Zle_Qle in A. lia. }
    assert (E0 : (0 <= e)%Z).
    { assert (A : (-1 < e)%Z); [|lia].
      replace (-1)%Z with (0 - 1)%Z by lia.
      assert (A : (0 < e + 1)%Z); [|lia].
      apply pow2_lt_inv. apply Qle_lt_trans with (2 := U).
      change (pow2 0) with (inject_Z 1). rewrite <- Zle_Qle. lia. }
    unfold ulp_exponent. fold e.
    replace (Z.max (e - 52) (-1074)) with (e - 52)%Z by lia.
    destruct (Z.eq_dec e 53) as [E|N].
    - rewrite E in *. rewrite pow2_nonneg_exp in L by lia.
      rewrite <- Zle_Qle in L.
      assert (Z53 : z = (2 ^ 53)%Z) by lia.
      apply (round_at_multiple _ (2 ^ 52)).
      rewrite Z53. reflexivity.
    - apply (round_at_multiple _ (z * 2 ^ (52 - e))).
      rewrite inject_Z_mult, <- (pow2_nonneg_exp (52 - e)) by lia.
      rewrite <- Qmult_assoc, <- pow2_add.
      replace (52 - e + (e - 52))%Z with 0%Z by lia.
      change (pow2 0) with 1. ring. }
  intros B.
  destruct (Z.compare_spec z 0) as [E|N|G].
  - subst z. reflexivity.
  - assert (Hq : 0 < inject_Z (- z)).
    { change 0 with (inject_Z 0). rewrite <- Zlt_Qlt. lia. }
    assert (E : inject_Z z == - inject_Z (- z)).
    { rewrite inject_Z_opp. ring. }
    rewrite (fl_comp _ _ E), fl_opp, (fl_pos_eq _ Hq), P by lia.
    symmetry. exact E.
  - assert (Hq : 0 < inject_Z z).
    { change 0 with (inject_Z 0). rewrite <- Zlt_Qlt. exact G. }
    rewrite (fl_pos_eq _ Hq). apply P. lia.
Qed.


(** On the numbers that the examples of this file use, [fl] and the
    operations built on it give what the binary64 arithmetic of the
    processor gives. *)
Example binary64_of_the_processor :
  denotes (float_value (23 / 160 * 100)%float) (fmul (fdiv 23 160) 100) = true /\
  denotes (float_value (180 * (35 / 100))%float) (fmul (fl 180) (fdiv 35 100))
  = true /\
  denotes (float_value (255 / 10 * (1 + 5 / 100))%float)
    (fmul (fl (255 # 10)) (fadd 1 (fdiv 5 100))) = true /\
  denotes (float_value (11 / 10 - 2 / 10)%float)
    (fsub (fl (11 # 10)) (fl (2 # 10))) = true /\
  denotes (float_value (1437 / 100)%float) (fl (1437 # 100)) = true /\
  denotes (float_value (9007199254740992 + 1)%float) (fl 9007199254740993) = true.
Proof. repeat split; vm_compute; reflexivity. Qed.

(** ** compute_spi *)

Lemma demand_matches_spec (w : WarehouseRecord) (d : DemandRow) :
  demand_matches w d = true <-> matching_demand w d.
Proof.
  unfold demand_matches, matching_demand.
  rewrite andb_true_iff, !String.eqb_eq. intuition congruence.
Qed.

Lemma merge_left_spec (warehouse : list WarehouseRecord) (demand : list DemandRow)
    (w : WarehouseRecord) (od : option DemandRow) :
  In (w, od) (merge_left warehouse demand) ->
  In w warehouse /\
  match od with
  | Some d => In d demand /\ matching_demand w d
  | None => forall d, In d demand -> ~ matching_demand w d
  end.
Proof.
  unfold merge_left. rewrite in_flat_map. intros (w' & Hw' & Hin).
  destruct (List.filter (demand_matches w') demand) as [|d0 ds] eqn:Hf.
  - destruct Hin as [[= -> <-]|[]]. split; [exact Hw'|].
    intros d Hd Hm. apply demand_matches_spec in Hm.
    assert (Hd' : In d (List.filter (demand_matches w) demand))
      by (apply filter_In; auto).
    rewrite Hf in Hd'. destruct Hd'.
  - apply in_map_iff in Hin as (d & [= -> <-] & Hd).
    rewrite <- Hf in Hd. apply filter_In in Hd as [Hd Hm].
    split; [exact Hw'|]. split; [exact Hd|]. now apply demand_matches_spec.
Qed.

Lemma py_int_inject_Z (x : Q) (p : Z) : x == inject_Z p -> py_int x = p.
Proof.
  intros E. unfold py_int. unfold Qeq, inject_Z in E. cbn [Qnum Qden] in E.
  rewrite Z.mul_1_r in E. rewrite E. apply Z.quot_mul. lia.
Qed.

Lemma wrap64_small (z : Z) : (- 2 ^ 63 <= z < 2 ^ 63)%Z -> wrap64 z = z.
Proof. intros H. unfold wrap64. rewrite Z.mod_small; lia. Qed.

(** A subtraction of two columns is exact on integers of at most [2^52] in
    magnitude, whatever the dtypes. *)
Lemma series_sub_exact (a b : dtype) (x y : Q) (p q : Z) :
  x == inject_Z p -> y == inject_Z q ->
  (Z.abs p <= 2 ^ 52)%Z -> (Z.abs q <= 2 ^ 52)%Z ->
  series_sub a b x y == inject_Z (p - q).
Proof.
  intros Ex Ey Bp Bq. unfold series_sub.
  assert (B : (Z.abs (p - q) <= 2 ^ 53)%Z).
  { change (2 ^ 53)%Z with (2 ^ 52 + 2 ^ 52)%Z. lia. }
  assert (F : fsub (fl x) (fl y) == inject_Z (p - q)).
  { unfold fsub.
    assert (Fx : fl x == inject_Z p).
    { rewrite (fl_comp _ _ Ex). apply fl_inject_Z.
      change (2 ^ 53)%Z with (2 ^ 52 + 2 ^ 52)%Z. lia. }
    assert (Fy : fl y == inject_Z q).
    { rewrite (fl_comp _ _ Ey). apply fl_inject_Z.
      change (2 ^ 53)%Z with (2 ^ 52 + 2 ^ 52)%Z. lia. }
    assert (D : fl x - fl y == inject_Z (p - q)).
    { rewrite Fx, Fy. unfold Zminus. rewrite inject_Z_plus, inject_Z_opp. ring. }
    rewrite (fl_comp _ _ D). apply fl_inject_Z, B. }
  destruct (result_type a b); [|exact F].
  rewrite (py_int_inject_Z x p Ex), (py_int_inject_Z y q Ey).
  rewrite wrap64_small; [reflexivity|].
  change (2 ^ 53)%Z with 9007199254740992%Z in B.
  change (2 ^ 63)%Z with 9223372036854775808%Z. lia.
Qed.

Lemma pressure_exact (s r d : dtype) (stock reorder demand : Q) (a b c : Z) :
  stock == inject_Z a -> reorder == inject_Z b -> demand == inject_Z c ->
  (Z.abs a <= 2 ^ 51)%Z -> (Z.abs b <= 2 ^ 51)%Z -> (Z.abs c <= 2 ^ 51)%Z ->
  pressure s r d stock reorder demand == (stock - reorder) - demand.
Proof.
  intros Ea Eb Ec Ba Bb Bc. unfold pressure.
  assert (P : (2 ^ 52 = 2 ^ 51 + 2 ^ 51)%Z) by reflexivity.
  assert (E1 : series_sub s r stock reorder == inject_Z (a - b)).
  { apply series_sub_exact; try assumption; lia. }
  rewrite (series_sub_exact _ _ _ _ (a - b) c E1 Ec) by lia.
  rewrite Ea, Eb, Ec. unfold Zminus.
  rewrite !inject_Z_plus, !inject_Z_opp. ring.
Qed.

(** C1 (corrected). Every row of the table [compute_spi] returns is a
    warehouse row whose [SPI] is
    [(Current_Stock_Units - Reorder_Level) - Monthly_Demand] in the
    arithmetic of the columns: a difference of two int64 columns wraps
    around modulo [2^64], any other difference is rounded to binary64, and
    nothing is rounded to decimals. [Monthly_Demand] is the value of a
    demand row whose [(Origin, Product_Category)] equals the row's
    [(Location, Product_Category)], and is 0 when no demand row matches.
    On integers of at most [2^51] in magnitude the [SPI] is the exact
    difference. *)
Theorem compute_spi_formula (dtypes : WarehouseDtypes)
    (warehouse : list WarehouseRecord) (demand : list DemandRow) :
  let stock_dtype := Current_Stock_Units_dtype dtypes in
  let reorder_dtype := Reorder_Level_dtype dtypes in
  let demand_dtype := Monthly_Demand_dtype (merge_left warehouse demand) in
  Forall
    (fun r =>
       In (wh r) warehouse /\
       SPI r = series_sub (result_type stock_dtype reorder_dtype) demand_dtype
                 (series_sub stock_dtype reorder_dtype
                    (Current_Stock_Units (wh r)) (Reorder_Level (wh r)))
                 (merged_Monthly_Demand r) /\
       ((exists d, In d demand /\ matching_demand (wh r) d /\
                   merged_Monthly_Demand r = Monthly_Demand d)
        \/ ((forall d, In d demand -> ~ matching_demand (wh r) d) /\
            merged_Monthly_Demand r = 0)) /\
       (forall a b c : Z,
           Current_Stock_Units (wh r) == inject_Z a ->
           Reorder_Level (wh r) == inject_Z b ->
           merged_Monthly_Demand r == inject_Z c ->
           (Z.abs a <= 2 ^ 51)%Z -> (Z.abs b <= 2 ^ 51)%Z ->
           (Z.abs c <= 2 ^ 51)%Z ->
           SPI r == (Current_Stock_Units (wh r) - Reorder_Level (wh r))
                    - merged_Monthly_Demand r))
    (compute_spi dtypes warehouse demand).
Proof.
  intros stock_dtype reorder_dtype demand_dtype.
  apply List.Forall_forall. intros r Hr.
  unfold compute_spi in Hr. apply in_map_iff in Hr as ([w od] & <- & Hin).
  apply merge_left_spec in Hin as [Hw Hod]. cbn [wh SPI merged_Monthly_Demand].
  split; [exact Hw|]. split; [reflexivity|]. split.
  - destruct od as [d|]; simpl.
    + left. exists d. tauto.
    + right. split; [exact Hod|reflexivity].
  - intros a b c Ea Eb Ec Ba Bb Bc.
    now apply (pressure_exact _ _ _ _ _ _ a b c).
Qed.

(** Where C1 fails as the claim words it. An int64 stock of [2^63 - 1] with
    a reorder level of [-1] wraps around to an [SPI] of [-2^63], a shortage,
    where the formula gives [2^63]; and the float stock 1.1 with the float
    reorder level 0.2 gives an [SPI] that is not their difference. *)
Lemma compute_spi_wraps_and_rounds :
  (exists r,
     compute_spi integer_stock [largest_stock] [] = [r] /\
     SPI r = inject_Z (- 2 ^ 63) /\
     is_shortage r = true /\
     (Current_Stock_Units (wh r) - Reorder_Level (wh r)) - merged_Monthly_Demand r
     = inject_Z (2 ^ 63)) /\
  (exists r,
     compute_spi float_stock [fractional_stock] [] = [r] /\
     Current_Stock_Units (wh r) = fl (11 # 10) /\
     Reorder_Level (wh r) = fl (2 # 10) /\
     merged_Monthly_Demand r = 0 /\
     ~ SPI r == (Current_Stock_Units (wh r) - Reorder_Level (wh r))
                - merged_Monthly_Demand r).
Proof.
  split.
  - eexists. split; [reflexivity|]. repeat split; vm_compute; reflexivity.
  - eexists. split; [reflexivity|]. repeat split.
    vm_compute. discriminate.
Qed.

(** ** calculate_demand and the row count of compute_spi *)

Lemma key_eqb_eq (a b : group_key) : key_eqb a b = true <-> a = b.
Proof.
  destruct a as [a1 a2], b as [b1 b2]. unfold key_eqb. simpl.
  rewrite andb_true_iff, !String.eqb_eq. split; [intros [-> ->]|intros [= -> ->]]; auto.
Qed.

Lemma unique_keys_NoDup (l : list group_key) : NoDup (unique_keys l).
Proof.
  induction l as [|k t IH]; simpl; constructor.
  - rewrite filter_In. intros [_ Hk].
    apply negb_true_iff in Hk.
    assert (key_eqb k k = true) by now apply key_eqb_eq.
    congruence.
  - now apply List.NoDup_filter.
Qed.

Lemma unique_keys_In (l : list group_key) (k : group_key) :
  In k (unique_keys l) <-> In k l.
Proof.
  induction l as [|h t IH]; simpl; [tauto|].
  rewrite filter_In, IH, negb_true_iff.
  destruct (key_eqb h k) eqn:E.
  - apply key_eqb_eq in E. subst. tauto.
  - split; [tauto|]. intros [H|H]; auto.
Qed.

Lemma insert_key_perm (k : group_key) (l : list group_key) :
  Permutation (insert_key k l) (k :: l).
Proof.
  induction l as [|h t IH]; simpl; [reflexivity|].
  destruct (key_leb k h); [reflexivity|].
  rewrite IH. apply perm_swap.
Qed.

Lemma sort_keys_perm (l : list group_key) : Permutation (sort_keys l) l.
Proof.
  induction l as [|k t IH]; simpl; [reflexivity|].
  rewrite insert_key_perm. now constructor.
Qed.

(** The demand table has one row per distinct [(Origin, Product_Category)]. *)
Lemma groupby_size_keys_NoDup (orders : list OrderRecord) :
  NoDup (List.map demand_key (groupby_size orders)).
Proof.
  unfold groupby_size. rewrite List.map_map. simpl.
  erewrite map_ext; [rewrite List.map_id|intros [a b]; reflexivity].
  eapply Permutation_NoDup; [symmetry; apply sort_keys_perm|].
  apply unique_keys_NoDup.
Qed.

(** [Monthly_Demand] is the number of orders of the group. *)
Lemma groupby_size_counts (orders : list OrderRecord) :
  Forall
    (fun d => Monthly_Demand d =
              inject_Z (Z.of_nat (group_size (demand_key d) orders)))
    (groupby_size orders).
Proof.
  apply List.Forall_forall. intros d Hd.
  unfold groupby_size in Hd. apply in_map_iff in Hd as ([a b] & <- & _).
  reflexivity.
Qed.

Lemma present_keys_In (orders : list OrderRecord) (k : group_key) :
  In k (present_keys orders) <-> In (Some k) (List.map order_key orders).
Proof.
  unfold present_keys. rewrite in_flat_map, in_map_iff.
  split; intros (o & H1 & H2).
  - exists o. split; [|exact H1].
    destruct (order_key o) as [k'|]; [|destruct H2].
    destruct H2 as [->|[]]. reflexivity.
  - exists o. split; [exact H2|]. rewrite H1. now left.
Qed.

(** The keys of the demand table are the keys of the orders that have
    one. *)
Lemma groupby_size_keys (orders : list OrderRecord) (k : group_key) :
  In k (List.map demand_key (groupby_size orders))
  <-> In (Some k) (List.map order_key orders).
Proof.
  unfold groupby_size. rewrite List.map_map. simpl.
  erewrite map_ext; [rewrite List.map_id|intros [a b]; reflexivity].
  rewrite <- present_keys_In, <- (unique_keys_In (present_keys orders)).
  split; apply Permutation_in;
    [apply sort_keys_perm | symmetry; apply sort_keys_perm].
Qed.

Lemma groupby_size_covers (orders : list OrderRecord) (o : OrderRecord)
    (k : group_key) :
  In o orders -> order_key o = Some k ->
  In k (List.map demand_key (groupby_size orders)).
Proof.
  intros Ho Hk. apply groupby_size_keys. rewrite <- Hk. now apply in_map.
Qed.

Lemma matches_at_most_one (w : WarehouseRecord) (demand : list DemandRow) :
  NoDup (List.map demand_key demand) ->
  (List.length (List.filter (demand_matches w) demand) <= 1)%nat.
Proof.
  induction demand as [|d t IH]; simpl; intros Hnd; [lia|].
  inversion Hnd as [|? ? Hnotin Hnd']; subst.
  destruct (demand_matches w d) eqn:Hm; [|now apply IH].
  simpl. destruct (List.filter (demand_matches w) t) as [|d' ds] eqn:Hf; [simpl; lia|].
  exfalso. apply Hnotin.
  assert (Hd' : In d' (List.filter (demand_matches w) t)) by (rewrite Hf; now left).
  apply filter_In in Hd' as [Hin Hm'].
  apply demand_matches_spec in Hm as [H1 H2].
  apply demand_matches_spec in Hm' as [H1' H2'].
  replace (demand_key d) with (demand_key d').
  - now apply in_map.
  - unfold demand_key. congruence.
Qed.

Lemma merge_left_length (warehouse : list WarehouseRecord) (demand : list DemandRow) :
  NoDup (List.map demand_key demand) ->
  List.length (merge_left warehouse demand) = List.length warehouse.
Proof.
  intros Hnd. unfold merge_left.
  induction warehouse as [|w t IH]; cbn [flat_map]; [reflexivity|].
  rewrite List.length_app, IH. cbn [List.length]. f_equal.
  pose proof (matches_at_most_one w demand Hnd) as Hle.
  destruct (List.filter (demand_matches w) demand) as [|d [|d' ds]]; simpl in *;
    [reflexivity|reflexivity|lia].
Qed.

Lemma compute_spi_length_distinct (dtypes : WarehouseDtypes)
    (warehouse : list WarehouseRecord) (demand : list DemandRow) :
  NoDup (List.map demand_key demand) ->
  List.length (compute_spi dtypes warehouse demand) = List.length warehouse.
Proof.
  intros Hnd. unfold compute_spi. rewrite List.length_map.
  now apply merge_left_length.
Qed.

Lemma calculate_demand_Ok (to_datetime : Parser)
    (orders orders' : list OrderRecord) (demand : list DemandRow) :
  calculate_demand to_datetime orders = Ok (orders', demand) ->
  demand = groupby_size orders'.
Proof.
  unfold calculate_demand.
  destruct (mapM _ orders) as [os|e]; simpl; [|discriminate].
  now intros [= <- <-].
Qed.

(** C2. On a demand table that [calculate_demand] returned, [compute_spi]
    returns exactly as many rows as the warehouse table has (whether or not
    the warehouse table is empty). *)
Theorem compute_spi_preserves_row_count (to_datetime : Parser)
    (orders orders' : list OrderRecord) (demand : list DemandRow)
    (dtypes : WarehouseDtypes) (warehouse : list WarehouseRecord) :
  calculate_demand to_datetime orders = Ok (orders', demand) ->
  List.length (compute_spi dtypes warehouse demand) = List.length warehouse.
Proof.
  intros H. apply calculate_demand_Ok in H as ->.
  apply compute_spi_length_distinct, groupby_size_keys_NoDup.
Qed.

Lemma compute_spi_preserves_row_count_witness :
  exists orders' demand,
    calculate_demand midnight_parser sample_orders = Ok (orders', demand) /\
    List.length (compute_spi integer_stock sample_warehouse demand)
    = List.length sample_warehouse.
Proof.
  eexists _, _. split; [vm_compute; reflexivity|].
  eapply (compute_spi_preserves_row_count midnight_parser sample_orders).
  vm_compute; reflexivity.
Defined.

(** The scenario: demand 200 and 10, SPI -100 and 20. *)
Example scenario_pressure :
  List.map SPI
    (compute_spi integer_stock sample_warehouse (groupby_size sample_orders))
  = [-100; 20].
Proof. vm_compute. reflexivity. Qed.

(** ** sort_values *)

Lemma sorted_last_max (l : list Q) (x : Q) :
  StronglySorted Qle (l ++ [x]) -> forall y, In y (l ++ [x]) -> y <= x.
Proof.
  induction l as [|a l IH]; simpl; intros Hs y Hy.
  - destruct Hy as [<-|[]]. apply Qle_refl.
  - inversion Hs as [|? ? Hs' Hall]; subst.
    destruct Hy as [<-|Hy]; [|now apply IH].
    rewrite List.Forall_forall in Hall. apply Hall.
    apply in_or_app. right. now left.
Qed.

Lemma nth_map_nth_error {A : Type} (by_col : A -> Q) (rows : list A) (k : nat) (r : A) :
  nth_error rows k = Some r -> nth k (List.map by_col rows) 0 = by_col r.
Proof.
  revert k. induction rows as [|h t IH]; intros [|k]; simpl; try discriminate.
  - now intros [= ->].
  - apply IH.
Qed.

Section SortValues.

Variable K : SortKind.
Context {A : Type}.
Variable by_col : A -> Q.

(** The first row of a descending [sort_values] is a row of the table and
    no row has a larger value. *)
Lemma sort_values_descending_head (first : A) (t : list A) :
  let rows := first :: t in
  let d := hd first (sort_values K by_col false rows) in
  In d rows /\ forall c, In c rows -> by_col c <= by_col d.
Proof.
  intros rows.
  set (items := List.map by_col rows).
  set (n := List.length rows).
  assert (Hn : List.length (rev items) = n)
    by (unfold items, n; now rewrite List.length_rev, List.length_map).
  assert (Hni : List.length items = n)
    by (unfold items, n; now rewrite List.length_map).
  pose proof (argsort_perm K (rev items)) as Pa.
  pose proof (argsort_sorted K (rev items)) as Sa.
  rewrite Hn in Pa.
  destruct (exists_last (l := argsort K (rev items))) as (a' & jl & Ha).
  { intros E. rewrite E in Pa. apply Permutation_length in Pa.
    rewrite List.length_seq in Pa. unfold n, rows in Pa. discriminate. }
  assert (Hjl : (jl < n)%nat).
  { assert (Hin : In jl (argsort K (rev items)))
      by (rewrite Ha; apply in_or_app; right; now left).
    apply (Permutation_in _ Pa) in Hin. apply in_seq in Hin. lia. }
  assert (Hg : forall j, (j < n)%nat ->
               nth j (rev (seq 0 n)) 0%nat = (n - S j)%nat).
  { intros j Hj. rewrite rev_nth by (rewrite List.length_seq; exact Hj).
    rewrite List.length_seq, seq_nth by lia. reflexivity. }
  assert (Hrev : forall j, (j < n)%nat ->
                 nth j (rev items) 0 = nth (n - S j) items 0).
  { intros j Hj. rewrite rev_nth by (rewrite Hni; exact Hj).
    now rewrite Hni. }
  unfold sort_values, nargsort. fold items. rewrite Hni, Ha.
  rewrite List.map_app, rev_app_distr. cbn [List.map rev List.app take_rows flat_map].
  rewrite (Hg jl Hjl).
  destruct (nth_error rows (n - S jl)) as [r|] eqn:Hr.
  2:{ apply nth_error_None in Hr. fold n in Hr. lia. }
  cbn [List.app hd]. split; [eapply nth_error_In; exact Hr|].
  intros c Hc. apply In_nth_error in Hc as (k & Hk).
  assert (Hkn : (k < n)%nat)
    by (apply nth_error_Some; rewrite Hk; discriminate).
  rewrite <- (nth_map_nth_error by_col rows k c Hk).
  rewrite <- (nth_map_nth_error by_col rows (n - S jl) r Hr).
  fold items. rewrite <- (Hrev jl Hjl).
  replace k with (n - S (n - S k))%nat by lia.
  rewrite <- (Hrev (n - S k)%nat) by lia.
  rewrite Ha, List.map_app in Sa. cbn [List.map] in Sa.
  apply (sorted_last_max _ _ Sa).
  assert (Hin : In (n - S k)%nat (a' ++ [jl])).
  { rewrite <- Ha. apply (Permutation_in _ (Permutation_sym Pa)).
    apply in_seq. lia. }
  apply in_or_app. apply in_app_or in Hin as [Hin|[<-|[]]].
  - left. now apply (in_map (fun i => nth i (rev items) 0)).
  - right. now left.
Qed.

End SortValues.

(** ** recommend_transfers *)

Lemma is_shortage_spec (r : PressureRow) : is_shortage r = true <-> SPI r < 0.
Proof. apply Qltb_lt. Qed.

Lemma is_surplus_spec (r : PressureRow) : is_surplus r = true <-> 0 < SPI r.
Proof. apply Qltb_lt. Qed.

Lemma candidates_spec (merged : list PressureRow) (row c : PressureRow) :
  In c (candidates merged row) <->
  In c merged /\ 0 < SPI c /\ category c = category row.
Proof.
  unfold candidates, same_category.
  rewrite !filter_In, is_surplus_spec, String.eqb_eq. tauto.
Qed.

Lemma recommend_loop (N : Numpy) (K : SortKind) (surplus shortages : list PressureRow)
    (acc : list TransferRecommendation) :
  fold_left (recommend_step N K surplus) shortages acc
  = acc ++ flat_map (emitted N K surplus) shortages.
Proof.
  revert acc. induction shortages as [|row t IH]; intros acc; simpl.
  - now rewrite List.app_nil_r.
  - rewrite IH. unfold recommend_step, emitted.
    destruct (select_donor K _); [|reflexivity].
    now rewrite <- List.app_assoc.
Qed.

Lemma recommend_transfers_unfold (N : Numpy) (K : SortKind) (merged : list PressureRow) :
  recommend_transfers N K merged
  = flat_map (emitted N K (List.filter is_surplus merged))
      (List.filter is_shortage merged).
Proof. unfold recommend_transfers. now rewrite recommend_loop. Qed.

Lemma select_donor_spec (K : SortKind) (same_cat : list PressureRow) :
  match select_donor K same_cat with
  | Some donor =>
      In donor same_cat /\ forall c, In c same_cat -> SPI c <= SPI donor
  | None => same_cat = []
  end.
Proof.
  destruct same_cat as [|first t]; [reflexivity|].
  apply (sort_values_descending_head K SPI first t).
Qed.

Lemma py_min_le_l (a b : Q) : py_min a b <= a.
Proof.
  unfold py_min. destruct (Qlt_le_dec b a); [now apply Qlt_le_weak|apply Qle_refl].
Qed.

Lemma py_min_le_r (a b : Q) : py_min a b <= b.
Proof.
  unfold py_min. destruct (Qlt_le_dec b a); [apply Qle_refl|assumption].
Qed.

Lemma py_min_nonneg (a b : Q) : 0 <= a -> 0 <= b -> 0 <= py_min a b.
Proof. unfold py_min. now destruct (Qlt_le_dec b a). Qed.

(** On a non-negative number truncation toward zero is the floor. *)
Lemma py_int_floor (x : Q) : 0 <= x -> py_int x = Qfloor x.
Proof.
  destruct x as [n d]. unfold Qle, py_int. simpl. intros H.
  apply Z.quot_div_nonneg; lia.
Qed.

(** On a non-positive number it is the ceiling. *)
Lemma py_int_ceiling (x : Q) : x <= 0 -> py_int x = Qceiling x.
Proof.
  destruct x as [n d]. unfold Qle, py_int, Qceiling. simpl. intros H.
  rewrite <- (Z.opp_involutive n) at 1.
  rewrite Z.quot_opp_l by lia. f_equal.
  apply Z.quot_div_nonneg; lia.
Qed.

Lemma py_int_nonneg (x : Q) : 0 <= x -> (0 <= py_int x)%Z.
Proof.
  intros H. rewrite py_int_floor by exact H.
  change 0%Z with (Qfloor 0). now apply Qfloor_resp_le.
Qed.

Lemma py_int_le (x : Q) : 0 <= x -> inject_Z (py_int x) <= x.
Proof. intros H. rewrite py_int_floor by exact H. apply Qfloor_le. Qed.

Lemma emitted_spec (N : Numpy) (K : SortKind) (merged : list PressureRow)
    (row : PressureRow) (rec : TransferRecommendation) :
  In rec (emitted N K (List.filter is_surplus merged) row) ->
  exists donor,
    In donor (candidates merged row) /\
    (forall c, In c (candidates merged row) -> SPI c <= SPI donor) /\
    rec = recommendation N row donor.
Proof.
  unfold emitted. fold (candidates merged row).
  pose proof (select_donor_spec K (candidates merged row)) as Hs.
  destruct (select_donor K (candidates merged row)) as [donor|]; [|intros []].
  intros [<-|[]]. exists donor. tauto.
Qed.

(** C3. Every recommendation is made for a shortage row and a surplus row
    of the same category taken from the table; its [Units] is
    [min(|receiver.SPI|, donor.SPI)] truncated toward zero, a non-negative
    integer that exceeds neither the receiver's deficit nor the donor's
    surplus. *)
Theorem recommend_transfers_units (N : Numpy) (K : SortKind) (merged : list PressureRow) :
  Forall
    (fun rec =>
       exists row donor,
         In row merged /\ SPI row < 0 /\
         In donor merged /\ 0 < SPI donor /\ category donor = category row /\
         To_Warehouse rec = Warehouse_ID (wh row) /\
         From_Warehouse rec = Warehouse_ID (wh donor) /\
         Units rec = py_int (py_min (Qabs (SPI row)) (SPI donor)) /\
         Units rec = Qfloor (py_min (Qabs (SPI row)) (SPI donor)) /\
         (0 <= Units rec)%Z /\
         inject_Z (Units rec) <= Qabs (SPI row) /\
         inject_Z (Units rec) <= SPI donor)
    (recommend_transfers N K merged).
Proof.
  apply List.Forall_forall. intros rec Hrec.
  rewrite recommend_transfers_unfold in Hrec.
  apply in_flat_map in Hrec as (row & Hrow & Hrec).
  apply filter_In in Hrow as [Hrow Hshort]. apply is_shortage_spec in Hshort.
  apply emitted_spec in Hrec as (donor & Hd & _ & ->).
  apply candidates_spec in Hd as (Hd & Hpos & Hcat).
  assert (Hmin : 0 <= py_min (Qabs (SPI row)) (SPI donor))
    by (apply py_min_nonneg; [apply Qabs_nonneg|now apply Qlt_le_weak]).
  exists row, donor. simpl.
  repeat split; auto.
  - now apply py_int_floor.
  - now apply py_int_nonneg.
  - eapply Qle_trans; [now apply py_int_le|apply py_min_le_l].
  - eapply Qle_trans; [now apply py_int_le|apply py_min_le_r].
Qed.

(** X26. A shortage row with a candidate donor gets a recommendation, and
    its donor is a candidate whose [SPI] no other candidate exceeds,
    whichever algorithm [sort_values] sorts with. Which of several
    candidates of that same [SPI] is taken is decided by the sort algorithm
    of the library. *)
Theorem donor_has_maximum_surplus (N : Numpy) (K : SortKind) (merged : list PressureRow)
    (row : PressureRow) :
  In row merged -> SPI row < 0 -> candidates merged row <> [] ->
  exists donor,
    select_donor K (candidates merged row) = Some donor /\
    In donor (candidates merged row) /\
    (forall c, In c (candidates merged row) -> SPI c <= SPI donor) /\
    In (recommendation N row donor) (recommend_transfers N K merged).
Proof.
  intros Hrow Hshort Hne.
  pose proof (select_donor_spec K (candidates merged row)) as Hs.
  destruct (select_donor K (candidates merged row)) as [donor|] eqn:Hsel;
    [|contradiction].
  exists donor. destruct Hs as [Hin Hmax]. repeat split; auto.
  rewrite recommend_transfers_unfold. apply in_flat_map.
  exists row. split.
  - apply filter_In. split; [exact Hrow|now apply is_shortage_spec].
  - unfold emitted. fold (candidates merged row). rewrite Hsel. now left.
Qed.

Lemma donor_has_maximum_surplus_witness :
  exists donor,
    select_donor stable_sort (candidates tie_table (pressure_row "R" "Toys" (-5)))
    = Some donor /\
    In donor (candidates tie_table (pressure_row "R" "Toys" (-5))) /\
    (forall c, In c (candidates tie_table (pressure_row "R" "Toys" (-5))) ->
               SPI c <= SPI donor) /\
    In (recommendation float64_scalars (pressure_row "R" "Toys" (-5)) donor)
       (recommend_transfers float64_scalars stable_sort tie_table).
Proof.
  apply (donor_has_maximum_surplus float64_scalars stable_sort tie_table
           (pressure_row "R" "Toys" (-5))).
  - simpl. auto.
  - reflexivity.
  - vm_compute. discriminate.
Defined.

(** With a stable sort the first of the two equal donors is selected. *)
Example stable_sort_selects_first :
  List.map From_Warehouse (recommend_transfers float64_scalars stable_sort tie_table) = ["A"].
Proof. reflexivity. Qed.

Lemma select_donor_single (K : SortKind) (d : PressureRow) :
  select_donor K [d] = Some d.
Proof.
  pose proof (select_donor_spec K [d]) as Hs.
  destruct (select_donor K [d]) as [d'|]; [|discriminate].
  destruct Hs as [[->|[]] _]. reflexivity.
Qed.

(** C5. The loop reads one surplus table, computed before the loop and the
    same for every shortage row: the output is the concatenation of what
    each shortage row gets from that table. On [shared_donor_table] the
    single donor, of surplus 15, is the source of two recommendations of 10
    units each. *)
Theorem donor_surplus_not_decremented :
  (forall N K merged,
      recommend_transfers N K merged
      = flat_map (emitted N K (List.filter is_surplus merged))
          (List.filter is_shortage merged)) /\
  exists merged donor,
    In donor merged /\
    forall N K, exists rec1 rec2,
      recommend_transfers N K merged = [rec1; rec2] /\
      To_Warehouse rec1 <> To_Warehouse rec2 /\
      From_Warehouse rec1 = Warehouse_ID (wh donor) /\
      From_Warehouse rec2 = Warehouse_ID (wh donor) /\
      SPI donor < inject_Z (Units rec1 + Units rec2).
Proof.
  split; [exact recommend_transfers_unfold|].
  exists shared_donor_table, (pressure_row "D" "Toys" 15).
  split; [simpl; auto|]. intros N K.
  exists (recommendation N (pressure_row "R1" "Toys" (-10))
            (pressure_row "D" "Toys" 15)),
         (recommendation N (pressure_row "R2" "Toys" (-10))
            (pressure_row "D" "Toys" 15)).
  split; [|repeat split; try reflexivity; discriminate].
  rewrite recommend_transfers_unfold.
  change (List.filter is_shortage shared_donor_table)
    with [pressure_row "R1" "Toys" (-10); pressure_row "R2" "Toys" (-10)].
  change (List.filter is_surplus shared_donor_table)
    with [pressure_row "D" "Toys" 15].
  cbn [flat_map]. unfold emitted.
  change (List.filter (same_category (pressure_row "R1" "Toys" (-10)))
            [pressure_row "D" "Toys" 15]) with [pressure_row "D" "Toys" 15].
  change (List.filter (same_category (pressure_row "R2" "Toys" (-10)))
            [pressure_row "D" "Toys" 15]) with [pressure_row "D" "Toys" 15].
  rewrite select_donor_single. reflexivity.
Qed.

(** The scenario: one recommendation, Delhi to Mumbai, 20 units, 90.00. *)
Example scenario_recommendation :
  List.map
    (fun r => (From_Location r, To_Location r, Units r,
               Qred (Estimated_Saving_INR r)))
    (recommend_transfers float64_scalars stable_sort
       (compute_spi integer_stock sample_warehouse (groupby_size sample_orders)))
  = [("Delhi", "Mumbai", 20%Z, 90)].
Proof. vm_compute. reflexivity. Qed.

(** ** The donor under a stable sort *)

Lemma insert_index_stable (l : list Q) (i : nat) (sorted : list nat) :
  Forall (fun j => (i < j)%nat) sorted ->
  StronglySorted (stable_before l) sorted ->
  StronglySorted (stable_before l) (insert_index Qle_bool l i sorted).
Proof.
  induction sorted as [|j t IH]; cbn [insert_index]; intros Hgt Hs.
  - repeat constructor.
  - inversion Hs as [|? ? Hs' Hall]; subst.
    inversion Hgt as [|? ? Hij Hgt']; subst.
    destruct (Qle_bool (nth i l 0) (nth j l 0)) eqn:E.
    + apply Qle_bool_le in E. constructor; [exact Hs|].
      constructor; [split; [exact E|lia]|].
      rewrite List.Forall_forall in Hall, Hgt' |- *. intros k Hk.
      split; [|specialize (Hgt' k Hk); lia].
      apply Qle_trans with (nth j l 0); [exact E|apply (Hall k Hk)].
    + constructor; [now apply IH|].
      apply List.Forall_forall. intros k Hk.
      apply (Permutation_in _ (insert_index_perm Qle_bool l i t)) in Hk.
      destruct Hk as [<-|Hk].
      * assert (Hlt : nth j l 0 < nth i l 0).
        { apply Qnot_le_lt. intros Hle. apply Qle_bool_iff in Hle. congruence. }
        split; [now apply Qlt_le_weak|now intros _].
      * rewrite List.Forall_forall in Hall. now apply Hall.
Qed.

Lemma insertion_argsort_stable_from (l : list Q) (len s : nat) :
  let sorted := fold_right (insert_index Qle_bool l) [] (seq s len) in
  StronglySorted (stable_before l) sorted /\
  Forall (fun j => (s <= j)%nat) sorted.
Proof.
  revert s. induction len as [|len IH]; intros s; cbn [seq fold_right].
  - split; constructor.
  - destruct (IH (S s)) as [Hs Hge]. split.
    + apply insert_index_stable; [|exact Hs].
      eapply List.Forall_impl; [|exact Hge]. intros j Hj. simpl in Hj. lia.
    + apply List.Forall_forall. intros j Hj.
      apply (Permutation_in _ (insert_index_perm Qle_bool l s _)) in Hj.
      destruct Hj as [<-|Hj]; [lia|].
      rewrite List.Forall_forall in Hge. specialize (Hge j Hj). simpl in Hge. lia.
Qed.

Lemma sorted_last_rel {A : Type} (R : A -> A -> Prop) (l : list A) (x : A) :
  StronglySorted R (l ++ [x]) -> Forall (fun y => R y x) l.
Proof.
  induction l as [|a l IH]; cbn [List.app]; intros Hs; [constructor|].
  inversion Hs as [|? ? Hs' Hall]; subst. constructor; [|now apply IH].
  rewrite List.Forall_forall in Hall. apply Hall, in_or_app. right. now left.
Qed.

Lemma first_encountered_maximum_unique (rows : list PressureRow)
    (d d' : PressureRow) :
  first_encountered_maximum rows d -> first_encountered_maximum rows d' -> d = d'.
Proof.
  intros (front & back & -> & Hf & Hb) (front' & back' & E & Hf' & Hb').
  revert front' E Hf'. induction front as [|x front IH]; intros front' E Hf'.
  - destruct front' as [|x' front']; cbn [List.app] in E.
    + now injection E.
    + injection E as -> Eb. exfalso.
      inversion Hf' as [|? ? Hx _]; subst.
      rewrite List.Forall_forall in Hb.
      assert (Hd' : SPI d' <= SPI x') by (apply Hb, in_or_app; right; now left).
      apply (Qlt_irrefl (SPI d')). now apply Qle_lt_trans with (SPI x').
  - inversion Hf as [|? ? Hx Hf0]; subst.
    destruct front' as [|x' front']; cbn [List.app] in E.
    + injection E as <- Eb. exfalso.
      rewrite List.Forall_forall in Hb'.
      assert (Hd : SPI d <= SPI x) by (apply Hb'; rewrite <- Eb; apply in_or_app; right; now left).
      apply (Qlt_irrefl (SPI d)). now apply Qle_lt_trans with (SPI x).
    + injection E as <- E'. inversion Hf' as [|? ? _ Hf0']; subst.
      now apply (IH Hf0 front').
Qed.

Lemma first_maximum_spec (rows : list PressureRow) :
  match first_maximum rows with
  | Some d => first_encountered_maximum rows d
  | None => rows = []
  end.
Proof.
  induction rows as [|r t IH]; [reflexivity|].
  cbn [first_maximum]. destruct (first_maximum t) as [m|].
  - destruct IH as (front & back & -> & Hf & Hb).
    destruct (Qltb (SPI r) (SPI m)) eqn:E.
    + apply Qltb_lt in E. exists (r :: front), back.
      split; [reflexivity|]. split; [now constructor|exact Hb].
    + apply Qltb_ge in E. exists [], (front ++ m :: back).
      split; [reflexivity|]. split; [constructor|].
      apply List.Forall_forall. intros c Hc.
      apply Qle_trans with (SPI m); [|exact E].
      apply in_app_or in Hc as [Hc|[<-|Hc]].
      * rewrite List.Forall_forall in Hf. now apply Qlt_le_weak, Hf.
      * apply Qle_refl.
      * rewrite List.Forall_forall in Hb. now apply Hb.
  - subst t. exists [], []. repeat split; constructor.
Qed.

Lemma nth_error_split_at {A : Type} (rows : list A) (p : nat) (d : A) :
  nth_error rows p = Some d ->
  rows = firstn p rows ++ d :: skipn (S p) rows.
Proof.
  revert p. induction rows as [|r t IH]; intros [|p]; cbn; try discriminate.
  - now intros [= ->].
  - intros H. f_equal. now apply IH.
Qed.

Lemma stable_sort_head (first : PressureRow) (t : list PressureRow) :
  first_encountered_maximum (first :: t)
    (hd first (sort_values stable_sort SPI false (first :: t))).
Proof.
  set (rows := first :: t).
  set (items := List.map SPI rows).
  set (n := List.length rows).
  assert (Hn : List.length (rev items) = n)
    by (unfold items, n; now rewrite List.length_rev, List.length_map).
  assert (Hni : List.length items = n)
    by (unfold items, n; now rewrite List.length_map).
  pose proof (insertion_argsort_perm Qle_bool (rev items)) as Pa.
  destruct (insertion_argsort_stable_from (rev items) (List.length (rev items)) 0)
    as [Sa _].
  fold (insertion_argsort Qle_bool (rev items)) in Sa.
  rewrite Hn in Pa.
  destruct (exists_last (l := insertion_argsort Qle_bool (rev items)))
    as (a' & jl & Ha).
  { intros E. rewrite E in Pa. apply Permutation_length in Pa.
    rewrite List.length_seq in Pa. unfold n, rows in Pa. discriminate. }
  assert (Hmem : forall j, (j < n)%nat -> In j (a' ++ [jl])).
  { intros j Hj. rewrite <- Ha. apply (Permutation_in _ (Permutation_sym Pa)).
    apply in_seq. lia. }
  assert (Hjl : (jl < n)%nat).
  { assert (Hin : In jl (insertion_argsort Qle_bool (rev items)))
      by (rewrite Ha; apply in_or_app; right; now left).
    apply (Permutation_in _ Pa) in Hin. apply in_seq in Hin. lia. }
  assert (Hg : nth jl (rev (seq 0 n)) 0%nat = (n - S jl)%nat).
  { rewrite rev_nth by (rewrite List.length_seq; exact Hjl).
    rewrite List.length_seq, seq_nth by lia. reflexivity. }
  assert (Hrev : forall j, (j < n)%nat ->
                 nth j (rev items) 0 = nth (n - S j) items 0).
  { intros j Hj. rewrite rev_nth by (rewrite Hni; exact Hj). now rewrite Hni. }
  rewrite Ha in Sa. apply sorted_last_rel in Sa.
  rewrite List.Forall_forall in Sa.
  assert (Hlast : forall j, (j < n)%nat -> j <> jl ->
                  stable_before (rev items) j jl).
  { intros j Hj Hne. apply Sa.
    destruct (in_app_or _ _ _ (Hmem j Hj)) as [H|[H|[]]]; [exact H|congruence]. }
  unfold sort_values, nargsort. fold items. rewrite Hni.
  change (argsort stable_sort (rev items))
    with (insertion_argsort Qle_bool (rev items)).
  rewrite Ha, List.map_app, rev_app_distr.
  cbn [List.map rev List.app take_rows flat_map]. rewrite Hg.
  destruct (nth_error rows (n - S jl)) as [d|] eqn:Hd.
  2:{ apply nth_error_None in Hd. fold n in Hd. lia. }
  cbn [List.app hd].
  assert (Hval : forall q c, nth_error rows q = Some c ->
                 (q < n)%nat /\ SPI c = nth (n - S q) (rev items) 0).
  { intros q c Hq.
    assert (Hqn : (q < n)%nat) by (apply nth_error_Some; rewrite Hq; discriminate).
    split; [exact Hqn|]. rewrite Hrev by lia.
    replace (n - S (n - S q))%nat with q by lia.
    symmetry. now apply nth_map_nth_error. }
  destruct (Hval _ _ Hd) as [_ Ed].
  replace (n - S (n - S jl))%nat with jl in Ed by lia.
  exists (firstn (n - S jl) rows), (skipn (S (n - S jl)) rows).
  split; [now apply nth_error_split_at|]. split.
  - apply List.Forall_forall. intros c Hc.
    apply In_nth_error in Hc as (q & Hq).
    assert (Hqp : (q < n - S jl)%nat).
    { assert (H : nth_error (firstn (n - S jl) rows) q <> None) by congruence.
      apply nth_error_Some in H. rewrite List.length_firstn in H. lia. }
    rewrite nth_error_firstn in Hq.
    destruct (Nat.ltb_spec q (n - S jl)) as [_|]; [|lia].
    destruct (Hval _ _ Hq) as [Hqn ->]. rewrite Ed.
    apply (Hlast (n - S q)%nat); lia.
  - apply List.Forall_forall. intros c Hc.
    apply In_nth_error in Hc as (q & Hq).
    rewrite nth_error_skipn in Hq.
    destruct (Hval _ _ Hq) as [Hqn ->]. rewrite Ed.
    apply (Hlast (n - S (S (n - S jl) + q))%nat); lia.
Qed.

(** With a stable sort [recommend_transfers] selects the first-encountered
    candidate of maximal [SPI]. *)
Theorem stable_sort_selects_first_maximum (same_cat : list PressureRow) :
  select_donor stable_sort same_cat = first_maximum same_cat.
Proof.
  pose proof (first_maximum_spec same_cat) as Hm.
  destruct same_cat as [|first t].
  - reflexivity.
  - cbn [select_donor].
    destruct (first_maximum (first :: t)) as [m|]; [|discriminate].
    f_equal. eapply first_encountered_maximum_unique; [|exact Hm].
    apply stable_sort_head.
Qed.

(** ** calculate_metrics *)

Lemma nearest_hundredth_comp (x y : Q) :
  x == y -> nearest_hundredth x = nearest_hundredth y.
Proof.
  intros H. unfold nearest_hundredth. f_equal. apply py_round_comp. now rewrite H.
Qed.

Lemma py_truediv_cons (a : nat) (r : PressureRow) (t : list PressureRow) :
  py_truediv a (List.length (r :: t))
  = Ok (fdiv (inject_Z (Z.of_nat a)) (inject_Z (Z.of_nat (List.length (r :: t))))).
Proof. reflexivity. Qed.

(** C6 (corrected). On the empty table [calculate_metrics] raises
    [ZeroDivisionError]. On a table with at least one row it returns, and
    [shortage_percentage] is [round(x, 2)] of the float
    [x = (number of rows with SPI < 0) / (number of rows) * 100], whose
    quotient and whose product are each rounded to binary64. *)
Theorem calculate_metrics_shortage_percentage (N : Numpy) (K : SortKind) :
  calculate_metrics N K [] = Raise ZeroDivisionError /\
  forall (r : PressureRow) (t : list PressureRow),
    let merged := r :: t in
    exists m,
      calculate_metrics N K merged = Ok m /\
      total_skus m = List.length merged /\
      shortage_percentage m
      = py_round2
          (fmul (fdiv (inject_Z (Z.of_nat (count_shortages merged)))
                   (inject_Z (Z.of_nat (List.length merged))))
             100).
Proof.
  split; [reflexivity|].
  intros r t merged. unfold calculate_metrics.
  fold (count_shortages merged). unfold merged. rewrite py_truediv_cons.
  eexists. split; [reflexivity|]. split; reflexivity.
Qed.

(** Where C6 fails as the claim words it: of 160 rows 23 are shortages; the
    percentage is 14.375, which rounds to 14.38, but the float
    [23 / 160 * 100] is 14.374999999999998 and the metric is 14.37. *)
Lemma shortage_percentage_rounds_the_float :
  count_shortages shortages_23_of_160 = 23%nat /\
  List.length shortages_23_of_160 = 160%nat /\
  shortage_percentage
    <$> calculate_metrics float64_scalars stable_sort shortages_23_of_160
  = Ok (fl (1437 # 100)) /\
  fmul (fdiv 23 160) 100 == 8092405580431359 # 562949953421312 /\
  nearest_hundredth (100 * 23 / 160) = 1438 # 100 /\
  fl (1437 # 100) < 1438 # 100.
Proof.
  repeat split; vm_compute; reflexivity.
Qed.

(** One shortage row in four gives 25.00. *)
Example one_shortage_in_four :
  (fun m => Qred (shortage_percentage m))
    <$> calculate_metrics float64_scalars stable_sort
          [ pressure_row "A" "Toys" (-3); pressure_row "B" "Toys" 0;
            pressure_row "C" "Food" 4; pressure_row "D" "Food" 1 ]
  = Ok 25.
Proof. vm_compute. reflexivity. Qed.

(** ** validate_data *)

Lemma string_app_assoc (a b c : string) :
  ((a ++ b) ++ c)%string = (a ++ b ++ c)%string.
Proof.
  induction a as [|x a IH]; [reflexivity|].
  change (String x ((a ++ b) ++ c) = String x (a ++ b ++ c))%string.
  now rewrite IH.
Qed.

Lemma string_app_nil_r (a : string) : (a ++ EmptyString)%string = a.
Proof.
  induction a as [|x a IH]; [reflexivity|].
  change (String x (a ++ EmptyString) = String x a)%string.
  now rewrite IH.
Qed.

Lemma mentions_app (pre post s col : string) :
  mentions s col -> mentions (pre ++ s ++ post) col.
Proof.
  intros (p & q & ->). exists (pre ++ p)%string, (q ++ post)%string.
  now rewrite !string_app_assoc.
Qed.

Lemma concat_mentions (sep : string) (l : list string) (x : string) :
  In x l -> mentions (String.concat sep l) x.
Proof.
  induction l as [|h t IH]; [intros []|].
  intros [->|Hin].
  - destruct t as [|h' t'].
    + exists EmptyString, EmptyString. simpl. now rewrite string_app_nil_r.
    + exists EmptyString, (sep ++ String.concat sep (h' :: t'))%string. reflexivity.
  - destruct t as [|h' t']; [destruct Hin|].
    change (String.concat sep (h :: h' :: t'))
      with (h ++ sep ++ String.concat sep (h' :: t'))%string.
    destruct (IH Hin) as (p & q & ->).
    exists (h ++ sep ++ p)%string, q. now rewrite !string_app_assoc.
Qed.

Lemma repr_list_mentions (l : list string) (col : string) :
  In col l -> mentions (repr_list l) col.
Proof.
  intros Hin. unfold repr_list.
  apply (mentions_app "[" "]").
  assert (H : mentions (String.concat ", "
                (List.map (fun s => (quote ++ s ++ quote)%string) l))
              (quote ++ col ++ quote)%string).
  { apply concat_mentions.
    now apply (in_map (fun s => (quote ++ s ++ quote)%string)). }
  destruct H as (p & q & ->).
  exists (p ++ quote)%string, (quote ++ q)%string.
  now rewrite !string_app_assoc.
Qed.

Lemma has_column_false (df : DataFrame) (col : string) :
  has_column df col = false <-> df !! col = None.
Proof.
  unfold has_column. rewrite bool_decide_eq_false, <- eq_None_not_Some. tauto.
Qed.

Lemma has_negative_b_spec (df : DataFrame) (col : string) :
  has_negative_b df col = true <-> has_negative df col.
Proof.
  unfold has_negative_b, has_negative. split.
  - destruct (df !! col) as [column|]; [|discriminate].
    intros H. apply existsb_exists in H as ([q| |] & Hin & Hneg); try discriminate.
    exists column, q. repeat split; auto. now apply Qltb_lt.
  - intros (column & q & -> & Hin & Hq).
    apply existsb_exists. exists (Num q). split; [exact Hin|].
    now apply Qltb_lt.
Qed.

Lemma any_lt_numeric (column : list cell) :
  numeric column -> any_lt column 0 = Ok (existsb negative_cell column).
Proof.
  intros Hnum. unfold any_lt.
  assert (E : mapM (cell_lt 0) column = Ok (List.map negative_cell column)).
  { induction Hnum as [|c t Hc _ IH]; [reflexivity|].
    cbn [mapM]. rewrite IH.
    destruct c as [q| s|]; [reflexivity|now destruct (Hc s)|reflexivity]. }
  rewrite E.
  change (Ok (existsb id (List.map negative_cell column))
          = Ok (existsb negative_cell column)).
  f_equal. clear. induction column as [|c t IH]; [reflexivity|].
  cbn [List.map existsb]. now rewrite IH.
Qed.

Lemma negative_check_numeric (df : DataFrame) (col message : string)
    (errors : list string) :
  numeric_column df col ->
  negative_check df col message errors
  = Ok (if has_negative_b df col then errors ++ [message] else errors).
Proof.
  intros Hnum. unfold negative_check, has_negative_b.
  destruct (df !! col) as [column|] eqn:E; [|reflexivity].
  rewrite any_lt_numeric by exact (Hnum column E). reflexivity.
Qed.

Lemma validate_data_numeric (warehouse orders : DataFrame) :
  numeric_column warehouse "Current_Stock_Units" ->
  numeric_column warehouse "Storage_Cost_per_Unit" ->
  validate_data warehouse orders
  = Ok (match reported_errors warehouse orders with [] => true | _ => false end,
        reported_errors warehouse orders).
Proof.
  intros Hstock Hcost. unfold validate_data, reported_errors.
  rewrite negative_check_numeric by exact Hstock.
  change (Ok ?x ≫= ?f) with (f x). cbv beta.
  rewrite negative_check_numeric by exact Hcost.
  change (Ok ?x ≫= ?f) with (f x). cbv beta.
  fold (missing_columns warehouse required_warehouse_cols).
  fold (missing_columns orders required_orders_cols).
  fold negative_stock_message negative_cost_message.
  destruct (missing_columns warehouse required_warehouse_cols);
    destruct (missing_columns orders required_orders_cols);
    destruct (has_negative_b warehouse "Current_Stock_Units");
    destruct (has_negative_b warehouse "Storage_Cost_per_Unit");
    reflexivity.
Qed.

Lemma missing_report_mentions (header : string) (df : DataFrame)
    (required : list string) (col : string) :
  In col required -> df !! col = None ->
  exists msg,
    In msg (missing_report header (missing_columns df required)) /\
    mentions msg col.
Proof.
  intros Hreq Hnone.
  assert (Hin : In col (missing_columns df required)).
  { apply filter_In. split; [exact Hreq|].
    apply negb_true_iff. now apply has_column_false. }
  unfold missing_report.
  destruct (missing_columns df required) as [|c0 rest] eqn:E; [destruct Hin|].
  eexists. split; [now left|].
  pose proof (mentions_app header EmptyString _ _
                (repr_list_mentions _ _ Hin)) as Hm.
  rewrite string_app_nil_r in Hm. exact Hm.
Qed.

Lemma missing_report_not_negative (missing : list string)
    (c : ascii) (rest msg : string) :
  c <> "N"%char ->
  In msg (missing_report (String c rest) missing) ->
  msg <> negative_stock_message /\ msg <> negative_cost_message.
Proof.
  intros Hc Hin. unfold missing_report in Hin.
  destruct missing; [destruct Hin|]. destruct Hin as [<-|[]].
  change (String c rest ++ repr_list (s :: missing))%string
    with (String c (rest ++ repr_list (s :: missing))%string).
  split; intros [= E _]; now apply Hc.
Qed.

(** C7, as the code has it. When the [Current_Stock_Units] and
    [Storage_Cost_per_Unit] columns, if present, hold no text,
    [validate_data] returns a flag and a list of messages. The flag is true
    exactly when the list is empty. Each required column that is absent is
    named by a message; the negative-stock message is in the list exactly
    when some [Current_Stock_Units] is negative, the negative-cost message
    exactly when some [Storage_Cost_per_Unit] is negative; the checks do not
    depend on one another. *)
Theorem validate_data_reports (warehouse orders : DataFrame) :
  numeric_column warehouse "Current_Stock_Units" ->
  numeric_column warehouse "Storage_Cost_per_Unit" ->
  exists (valid : bool) (errors : list string),
    validate_data warehouse orders = Ok (valid, errors) /\
    (valid = true <-> errors = []) /\
    (forall col, In col required_warehouse_cols -> warehouse !! col = None ->
       valid = false /\ exists msg, In msg errors /\ mentions msg col) /\
    (forall col, In col required_orders_cols -> orders !! col = None ->
       valid = false /\ exists msg, In msg errors /\ mentions msg col) /\
    (has_negative warehouse "Current_Stock_Units" <->
       In negative_stock_message errors) /\
    (has_negative warehouse "Storage_Cost_per_Unit" <->
       In negative_cost_message errors).
Proof.
  intros Hstock Hcost.
  eexists _, _. split; [now apply validate_data_numeric|].
  set (errors := reported_errors warehouse orders).
  assert (Hflag : forall msg, In msg errors ->
            match errors with [] => true | _ => false end = false).
  { intros msg Hin. destruct errors; [destruct Hin|reflexivity]. }
  split; [destruct errors; split; congruence|].
  split; [|split; [|split]].
  - intros col Hreq Hnone.
    destruct (missing_report_mentions "Missing warehouse columns: "
                warehouse _ col Hreq Hnone) as (msg & Hin & Hm).
    assert (Hin' : In msg errors) by (unfold errors, reported_errors; auto with datatypes).
    split; [now apply (Hflag msg)|now exists msg].
  - intros col Hreq Hnone.
    destruct (missing_report_mentions "Missing orders columns: "
                orders _ col Hreq Hnone) as (msg & Hin & Hm).
    assert (Hin' : In msg errors)
      by (unfold errors, reported_errors; rewrite !in_app_iff; auto).
    split; [now apply (Hflag msg)|now exists msg].
  - rewrite <- has_negative_b_spec. unfold errors, reported_errors.
    rewrite !in_app_iff. split.
    + intros ->. right. right. left. now left.
    + intros [H|[H|[H|H]]].
      * apply missing_report_not_negative in H; [|discriminate].
        now destruct H.
      * apply missing_report_not_negative in H; [|discriminate].
        now destruct H.
      * destruct (has_negative_b warehouse "Current_Stock_Units");
          [reflexivity|destruct H].
      * destruct (has_negative_b warehouse "Storage_Cost_per_Unit");
          [|destruct H].
        destruct H as [H|[]]. discriminate H.
  - rewrite <- has_negative_b_spec. unfold errors, reported_errors.
    rewrite !in_app_iff. split.
    + intros ->. right. right. right. now left.
    + intros [H|[H|[H|H]]].
      * apply missing_report_not_negative in H; [|discriminate].
        now destruct H.
      * apply missing_report_not_negative in H; [|discriminate].
        now destruct H.
      * destruct (has_negative_b warehouse "Current_Stock_Units");
          [|destruct H].
        destruct H as [H|[]]. discriminate H.
      * destruct (has_negative_b warehouse "Storage_Cost_per_Unit");
          [reflexivity|destruct H].
Qed.

Lemma validate_data_reports_witness :
  exists (valid : bool) (errors : list string),
    validate_data warehouse_missing_reorder orders_frame = Ok (valid, errors) /\
    (valid = true <-> errors = []) /\
    (forall col, In col required_warehouse_cols ->
       warehouse_missing_reorder !! col = None ->
       valid = false /\ exists msg, In msg errors /\ mentions msg col) /\
    (forall col, In col required_orders_cols -> orders_frame !! col = None ->
       valid = false /\ exists msg, In msg errors /\ mentions msg col) /\
    (has_negative warehouse_missing_reorder "Current_Stock_Units" <->
       In negative_stock_message errors) /\
    (has_negative warehouse_missing_reorder "Storage_Cost_per_Unit" <->
       In negative_cost_message errors).
Proof.
  apply (validate_data_reports warehouse_missing_reorder orders_frame).
  - intros column H. vm_compute in H. injection H as <-.
    repeat constructor. discriminate.
  - intros column H. vm_compute in H. injection H as <-.
    repeat constructor. discriminate.
Defined.

(** Both messages of the scenario appear together. *)
Example missing_column_and_negative_stock :
  validate_data warehouse_missing_reorder orders_frame
  = Ok (false, [ "Missing warehouse columns: ['Reorder_Level']";
                 "Negative stock units found in warehouse data" ]).
Proof. vm_compute. reflexivity. Qed.

(** C7 as stated fails: on a table whose [Current_Stock_Units] column holds
    text, the comparison with 0 raises and [validate_data] returns nothing. *)
Lemma validate_data_raises_on_text :
  validate_data warehouse_text_stock orders_frame = Raise TypeError.
Proof. vm_compute. reflexivity. Qed.

(** ** simulate_demand_change *)


Lemma take_rows_In {A : Type} (rows : list A) (indexer : list nat) (r : A) :
  In r (take_rows rows indexer) -> In r rows.
Proof.
  unfold take_rows. rewrite in_flat_map. intros (i & _ & Hr).
  destruct (nth_error rows i) eqn:E; [|destruct Hr].
  destruct Hr as [<-|[]]. eapply nth_error_In; exact E.
Qed.

Lemma remove_position_perm (pool : list nat) (j d : nat) :
  (j < List.length pool)%nat ->
  Permutation pool (nth j pool d :: firstn j pool ++ skipn (S j) pool).
Proof.
  revert j. induction pool as [|p t IH]; intros j Hj; simpl in Hj; [lia|].
  destruct j as [|j]; [reflexivity|].
  cbn [nth firstn skipn List.app].
  rewrite (IH j) at 1 by lia. apply perm_swap.
Qed.


(** What is drawn is a part of the pool, each position at most once. *)
Lemma draw_part (rand : nat -> nat) (n k : nat) (pool : list nat) :
  exists rest, Permutation pool (draw rand k pool n ++ rest).
Proof.
  revert k pool. induction n as [|n IH]; intros k pool.
  - exists pool. reflexivity.
  - destruct pool as [|p0 t]; [exists []; reflexivity|].
    cbn [draw]. set (j := (rand k mod List.length (p0 :: t))%nat).
    assert (Hj : (j < List.length (p0 :: t))%nat)
      by (apply Nat.mod_upper_bound; discriminate).
    destruct (IH (S k) (firstn j (p0 :: t) ++ skipn (S j) (p0 :: t)))
      as (rest & Hrest).
    exists rest. rewrite (remove_position_perm (p0 :: t) j p0 Hj) at 1.
    cbn [List.app]. now constructor.
Qed.



Lemma fmul_nonneg (x y : Q) : 0 <= x -> 0 <= y -> 0 <= fmul x y.
Proof. intros Hx Hy. apply fl_nonneg. now apply Qmult_le_0_compat. Qed.

Lemma change_amount_nonneg (N : Z) (pct : Q) :
  (0 <= N)%Z -> (0 <= py_int (fmul (fl (inject_Z N)) (Qabs (fl pct))))%Z.
Proof.
  intros HN. apply py_int_nonneg. apply fmul_nonneg.
  - apply fl_nonneg. change 0 with (inject_Z 0). now rewrite <- Zle_Qle.
  - apply Qabs_nonneg.
Qed.



(** The product is the float product: 180 orders and the float 0.35 give
    62.99999999999999, hence 62 rows more or fewer, where [|pct| * N]
    rounded is 63. *)
Example float_product_is_truncated :
  let orders := repeat (sample_order "O" "Mumbai") 180 in
  let pct := 35 # 100 in
  change_amount orders pct = 62%Z /\
  List.length <$> simulate_demand_change counting_source orders pct = Ok 242%nat /\
  List.length <$> simulate_demand_change counting_source orders (- pct)
  = Ok 118%nat /\
  rounded_growth orders pct = 243%Z /\
  rounded_shrink orders (- pct) = 117%Z.
Proof. repeat split; vm_compute; reflexivity. Qed.

(** A change larger than the table is capped at the table's size. *)
Example growth_is_capped :
  List.length <$> simulate_demand_change counting_source three_orders 2
  = Ok 6%nat.
Proof. vm_compute. reflexivity. Qed.

(** ** calculate_demand and its argument *)

Lemma mapM_Ok_Forall2 {A B : Type} (f : A -> result B) (l : list A) (l' : list B) :
  mapM f l = Ok l' -> Forall2 (fun a b => f a = Ok b) l l'.
Proof.
  revert l'. induction l as [|a t IH]; intros l'; cbn [mapM].
  - intros [= <-]. constructor.
  - destruct (f a) as [b|e] eqn:Ea; [|discriminate].
    change (Ok b ≫= ?k) with (k b). cbv beta.
    destruct (mapM f t) as [bs|e]; [|discriminate].
    intros [= <-]. constructor; [exact Ea|now apply IH].
Qed.

(** After a successful call every [Order_Date] of the caller's table is a
    timestamp. *)
Lemma calculate_demand_leaves_timestamps (to_datetime : Parser)
    (orders orders' : list OrderRecord) (demand : list DemandRow) :
  calculate_demand to_datetime orders = Ok (orders', demand) ->
  Forall (fun o => exists ns, Order_Date o = Timestamp ns) orders'.
Proof.
  unfold calculate_demand. cbv zeta.
  generalize (List.map Order_Date orders). intros column.
  destruct (mapM _ orders) as [os|e] eqn:E; [|discriminate].
  intros [= <- _]. apply mapM_Ok_Forall2 in E.
  induction E as [|o o' t t' Ho _ IH]; constructor; [|exact IH].
  destruct (Order_Date o) as [s|ns]; cbn [parse_date] in Ho.
  - destruct (to_datetime column s) as [ns|]; [|discriminate].
    injection Ho as <-. now exists ns.
  - injection Ho as <-. now exists ns.
Qed.

(** So a table that held a date as text is not what it was, whatever the
    parser. *)
Lemma calculate_demand_changes_text_dates (to_datetime : Parser)
    (orders orders' : list OrderRecord) (demand : list DemandRow) :
  calculate_demand to_datetime orders = Ok (orders', demand) ->
  Exists (fun o => exists s, Order_Date o = DateText s) orders ->
  orders' <> orders.
Proof.
  intros H Hex ->. apply calculate_demand_leaves_timestamps in H.
  apply List.Exists_exists in Hex as (o & Hin & s & Hs).
  rewrite List.Forall_forall in H. destruct (H o Hin) as (ns & Hns). congruence.
Qed.

Lemma parsed_order_key (to_datetime : Parser) (column : list date_cell)
    (o o' : OrderRecord) :
  (d ← parse_date to_datetime column (Order_Date o); Ok (set_Order_Date o d))
  = Ok o' ->
  order_key o' = order_key o.
Proof.
  destruct (parse_date to_datetime column (Order_Date o)) as [d|e]; [|discriminate].
  now intros [= <-].
Qed.

(** The grouping does not read the dates: the demand table is that of the
    table as it was. *)
Lemma calculate_demand_groups_input (to_datetime : Parser)
    (orders orders' : list OrderRecord) (demand : list DemandRow) :
  calculate_demand to_datetime orders = Ok (orders', demand) ->
  demand = groupby_size orders.
Proof.
  intros H. pose proof (calculate_demand_Ok _ _ _ _ H) as ->.
  unfold calculate_demand in H. cbv zeta in H.
  revert H. generalize (List.map Order_Date orders). intros column H.
  destruct (mapM _ orders) as [os|e] eqn:E; [|discriminate].
  injection H as <- _. apply mapM_Ok_Forall2 in E.
  assert (Hk : present_keys os = present_keys orders).
  { unfold present_keys.
    induction E as [|o o' t t' Ho _ IH]; [reflexivity|].
    cbn [flat_map]. rewrite IH.
    now rewrite (parsed_order_key to_datetime column o o' Ho). }
  unfold groupby_size. rewrite Hk.
  apply map_ext_in. intros k _. f_equal. f_equal. f_equal.
  unfold group_size. clear Hk.
  induction E as [|o o' t t' Ho _ IH]; [reflexivity|].
  cbn [List.filter].
  assert (Hh : has_key k o' = has_key k o).
  { unfold has_key. now rewrite (parsed_order_key to_datetime column o o' Ho). }
  rewrite Hh. destruct (has_key k o); cbn [List.length]; now rewrite IH.
Qed.

(** C9 fails on [calculate_demand]: the one order read from a file, whose
    date is the text 2024-01-15, holds a timestamp after the call. *)
Theorem calculate_demand_rewrites_Order_Date :
  exists orders' demand,
    calculate_demand midnight_parser [sample_order "O1" "Mumbai"]
    = Ok (orders', demand) /\
    List.map Order_Date [sample_order "O1" "Mumbai"] = [DateText "2024-01-15"] /\
    List.map Order_Date orders' = [Timestamp 0] /\
    orders' <> [sample_order "O1" "Mumbai"].
Proof.
  eexists _, _. split; [reflexivity|]. repeat split. discriminate.
Qed.

(** ** The scenario with both percentages 0 *)

(** C10. With [pct = 0] the two simulations return tables equal to their
    inputs, and the pipeline run on them gives the result, metrics and
    recommendations or exception, of the pipeline run on the inputs. *)
Theorem zero_scenario_is_noop (to_datetime : Parser) (N : Numpy)
    (K : SortKind) (rand : nat -> nat) (dtypes : WarehouseDtypes)
    (warehouse : list WarehouseRecord) (orders : list OrderRecord) :
  exists orders_sim,
    simulate_demand_change rand orders 0 = Ok orders_sim /\
    pipeline to_datetime N K dtypes (simulate_cost_change warehouse 0) orders_sim
    = pipeline to_datetime N K dtypes warehouse orders.
Proof. exists orders. split; reflexivity. Qed.

(** * Further properties *)

(** ** calculate_demand: effect on its argument, counts *)

Lemma parse_step_Ok (to_datetime : Parser) (column : list date_cell)
    (o o' : OrderRecord) :
  (d ← parse_date to_datetime column (Order_Date o); Ok (set_Order_Date o d))
  = Ok o' ->
  parsed_row (to_datetime column) o o'.
Proof.
  unfold parsed_row. destruct (Order_Date o) as [s|t] eqn:Ed; cbn [parse_date].
  - destruct (to_datetime column s) as [ns|]; [|discriminate].
    intros [= <-]. now exists ns.
  - intros [= <-]. now exists t.
Qed.

(** X2. A successful call leaves in the caller's table the same rows in the
    same order, each with its [Order_Date] replaced by the timestamp parsed
    from it (a timestamp already there is kept) and nothing else changed. *)
Theorem calculate_demand_frame (to_datetime : Parser)
    (orders orders' : list OrderRecord) (demand : list DemandRow) :
  calculate_demand to_datetime orders = Ok (orders', demand) ->
  Forall2 (parsed_row (to_datetime (List.map Order_Date orders))) orders orders'.
Proof.
  unfold calculate_demand. cbv zeta.
  generalize (List.map Order_Date orders). intros column.
  destruct (mapM _ orders) as [os|e] eqn:E; [|discriminate].
  intros [= <- _]. apply mapM_Ok_Forall2 in E.
  induction E as [|o o' t t' Ho _ IH]; constructor; [|exact IH].
  now apply parse_step_Ok.
Qed.

Lemma calculate_demand_frame_witness :
  exists orders' demand,
    calculate_demand midnight_parser three_orders = Ok (orders', demand) /\
    Forall2 (parsed_row (midnight_parser (List.map Order_Date three_orders)))
      three_orders orders'.
Proof.
  eexists _, _. split; [vm_compute; reflexivity|].
  eapply (calculate_demand_frame midnight_parser three_orders).
  vm_compute. reflexivity.
Defined.

Lemma set_Order_Date_same (o : OrderRecord) :
  set_Order_Date o (Order_Date o) = o.
Proof. now destruct o. Qed.

Lemma mapM_parse_timestamps (to_datetime : Parser) (column : list date_cell)
    (orders : list OrderRecord) :
  Forall (fun o => exists ns, Order_Date o = Timestamp ns) orders ->
  mapM (fun o => d ← parse_date to_datetime column (Order_Date o);
                 Ok (set_Order_Date o d)) orders = Ok orders.
Proof.
  induction 1 as [|o t (ns & Ho) _ IH]; [reflexivity|].
  assert (E : set_Order_Date o (Timestamp ns) = o)
    by (rewrite <- Ho; apply set_Order_Date_same).
  cbn [mapM]. rewrite IH, Ho. cbn [parse_date].
  unfold mbind, result_bind. now rewrite E.
Qed.

(** X3. A second call on the table that a first call left behind changes
    nothing more and returns the same demand table. *)
Theorem calculate_demand_idempotent (to_datetime : Parser)
    (orders orders' : list OrderRecord) (demand : list DemandRow) :
  calculate_demand to_datetime orders = Ok (orders', demand) ->
  calculate_demand to_datetime orders' = Ok (orders', demand).
Proof.
  intros H.
  pose proof (calculate_demand_leaves_timestamps _ _ _ _ H) as Hts.
  apply calculate_demand_Ok in H as ->.
  unfold calculate_demand. now rewrite mapM_parse_timestamps.
Qed.

Lemma calculate_demand_idempotent_witness :
  exists orders' demand,
    calculate_demand midnight_parser three_orders = Ok (orders', demand) /\
    calculate_demand midnight_parser orders' = Ok (orders', demand).
Proof.
  eexists _, _. split; [vm_compute; reflexivity|].
  eapply (calculate_demand_idempotent midnight_parser three_orders).
  vm_compute. reflexivity.
Defined.

(** X4. The demand table has one row for each [(Origin, Product_Category)]
    that occurs among the orders with neither value missing, and no other
    row; its [Monthly_Demand] is the number of orders with that pair. An
    order with a missing [Origin] or [Product_Category] is counted in no
    row. *)
Theorem calculate_demand_counts (to_datetime : Parser)
    (orders orders' : list OrderRecord) (demand : list DemandRow) :
  calculate_demand to_datetime orders = Ok (orders', demand) ->
  NoDup (List.map demand_key demand) /\
  (forall k, In k (List.map demand_key demand)
             <-> In (Some k) (List.map order_key orders)) /\
  Forall
    (fun d => Monthly_Demand d
              = inject_Z (Z.of_nat (group_size (demand_key d) orders)))
    demand /\
  (forall o, In o orders -> order_key o = None ->
             forall k, group_size k [o] = 0%nat).
Proof.
  intros H. apply calculate_demand_groups_input in H as ->.
  split; [apply groupby_size_keys_NoDup|].
  split; [apply groupby_size_keys|]. split; [apply groupby_size_counts|].
  intros o _ Ho k. unfold group_size, has_key. cbn [List.filter].
  now rewrite Ho.
Qed.

Lemma calculate_demand_counts_witness :
  exists orders' demand,
    calculate_demand midnight_parser orders_one_without_origin
    = Ok (orders', demand) /\
    NoDup (List.map demand_key demand) /\
    (forall k, In k (List.map demand_key demand)
               <-> In (Some k) (List.map order_key orders_one_without_origin)) /\
    Forall
      (fun d => Monthly_Demand d
                = inject_Z
                    (Z.of_nat (group_size (demand_key d) orders_one_without_origin)))
      demand /\
    (forall o, In o orders_one_without_origin -> order_key o = None ->
               forall k, group_size k [o] = 0%nat).
Proof.
  eexists _, _. split; [vm_compute; reflexivity|].
  eapply (calculate_demand_counts midnight_parser orders_one_without_origin).
  vm_compute. reflexivity.
Defined.

(** Of three orders, one without [Origin], the demand table counts two. *)
Example missing_origin_is_dropped :
  groupby_size orders_one_without_origin
  = [ {| demand_Origin := "Delhi"; demand_Product_Category := "Electronics";
         Monthly_Demand := 1 |};
      {| demand_Origin := "Mumbai"; demand_Product_Category := "Electronics";
         Monthly_Demand := 1 |} ].
Proof. vm_compute. reflexivity. Qed.

Lemma list_sum_head (n : nat) (l : list nat) :
  list_sum (n :: l) = (n + list_sum l)%nat.
Proof. reflexivity. Qed.

Lemma key_indicator_sum (k : group_key) (keys : list group_key) :
  NoDup keys -> In k keys ->
  list_sum (List.map (fun k' => if key_eqb k' k then 1%nat else 0%nat) keys) = 1%nat.
Proof.
  induction 1 as [|h t Hnotin Hnd IH]; [intros []|].
  cbn [List.map]; rewrite ?list_sum_head. intros [->|Hin].
  - replace (key_eqb k k) with true by (symmetry; now apply key_eqb_eq).
    assert (E : list_sum (List.map (fun k' => if key_eqb k' k then 1%nat else 0%nat) t) = 0%nat).
    { clear IH Hnd. induction t as [|x t IHt]; [reflexivity|].
      cbn [List.map]; rewrite ?list_sum_head.
      destruct (key_eqb x k) eqn:Ex.
      - apply key_eqb_eq in Ex. subst. exfalso. apply Hnotin. now left.
      - rewrite IHt; [reflexivity|]. intros Hin. apply Hnotin. now right. }
    now rewrite E.
  - destruct (key_eqb h k) eqn:Eh.
    + apply key_eqb_eq in Eh. subst. contradiction.
    + now rewrite IH.
Qed.

Lemma list_sum_map_add {A : Type} (f g : A -> nat) (l : list A) :
  list_sum (List.map (fun a => (f a + g a)%nat) l)
  = (list_sum (List.map f l) + list_sum (List.map g l))%nat.
Proof.
  induction l as [|a t IH]; [reflexivity|].
  cbn [List.map]. rewrite !list_sum_head, IH. lia.
Qed.

Lemma list_sum_zeros {A : Type} (l : list A) :
  list_sum (List.map (fun _ => 0%nat) l) = 0%nat.
Proof. induction l as [|a t IH]; [reflexivity|]. cbn [List.map]. now rewrite list_sum_head. Qed.

Lemma has_key_indicator_sum (keys : list group_key) (o : OrderRecord) :
  NoDup keys ->
  (forall k, order_key o = Some k -> In k keys) ->
  list_sum (List.map (fun k => if has_key k o then 1%nat else 0%nat) keys)
  = if keyed o then 1%nat else 0%nat.
Proof.
  intros Hnd Hcov. unfold has_key, keyed.
  destruct (order_key o) as [k0|].
  - apply key_indicator_sum; [exact Hnd|]. now apply Hcov.
  - apply list_sum_zeros.
Qed.

Lemma group_sizes_sum (keys : list group_key) (orders : list OrderRecord) :
  NoDup keys ->
  (forall o k, In o orders -> order_key o = Some k -> In k keys) ->
  list_sum (List.map (fun k => group_size k orders) keys)
  = List.length (List.filter keyed orders).
Proof.
  intros Hnd. induction orders as [|o t IH]; intros Hcov.
  - unfold group_size. cbn [List.filter List.length]. apply list_sum_zeros.
  - erewrite map_ext.
    2:{ intros k. unfold group_size. cbn [List.filter].
        instantiate (1 := fun k => ((if has_key k o then 1 else 0)
                                    + group_size k t)%nat).
        cbv beta. unfold group_size. now destruct (has_key k o). }
    rewrite list_sum_map_add, has_key_indicator_sum, IH; auto.
    + cbn [List.filter]. now destruct (keyed o).
    + intros o' k Ho'. apply Hcov. now right.
    + intros k. apply Hcov. now left.
Qed.

Lemma Qsum_from (l : list Q) (acc : Q) : fold_left Qplus l acc == acc + Qsum l.
Proof.
  unfold Qsum. revert acc. induction l as [|x t IH]; intros acc; cbn [fold_left].
  - ring.
  - rewrite IH, (IH (0 + x)). ring.
Qed.

Lemma Qsum_cons (x : Q) (l : list Q) : Qsum (x :: l) == x + Qsum l.
Proof. unfold Qsum at 1. cbn [fold_left]. rewrite Qsum_from. ring. Qed.

Lemma Qsum_counts (l : list nat) :
  Qsum (List.map (fun n => inject_Z (Z.of_nat n)) l)
  == inject_Z (Z.of_nat (list_sum l)).
Proof.
  induction l as [|n t IH]; [reflexivity|].
  cbn [List.map]; rewrite ?list_sum_head. rewrite Qsum_cons, IH, Nat2Z.inj_add, inject_Z_plus.
  reflexivity.
Qed.

(** X5. The [Monthly_Demand] values of the demand table add up to the
    number of orders whose [Origin] and [Product_Category] are both
    present: an order with a missing value in either is not counted. *)
Theorem calculate_demand_total (to_datetime : Parser)
    (orders orders' : list OrderRecord) (demand : list DemandRow) :
  calculate_demand to_datetime orders = Ok (orders', demand) ->
  Qsum (List.map Monthly_Demand demand)
  == inject_Z (Z.of_nat (List.length (List.filter keyed orders))).
Proof.
  intros H. apply calculate_demand_groups_input in H as ->.
  unfold groupby_size. rewrite List.map_map. cbn [Monthly_Demand].
  rewrite <- (List.map_map (fun k => group_size k orders)
                (fun n => inject_Z (Z.of_nat n))).
  rewrite Qsum_counts, group_sizes_sum; [reflexivity| |].
  - eapply Permutation_NoDup; [symmetry; apply sort_keys_perm|].
    apply unique_keys_NoDup.
  - intros o k Ho Hk.
    apply (Permutation_in _ (Permutation_sym (sort_keys_perm _))).
    apply unique_keys_In, present_keys_In. rewrite <- Hk. now apply in_map.
Qed.

Lemma calculate_demand_total_witness :
  exists orders' demand,
    calculate_demand midnight_parser orders_one_without_origin
    = Ok (orders', demand) /\
    Qsum (List.map Monthly_Demand demand)
    == inject_Z
         (Z.of_nat (List.length (List.filter keyed orders_one_without_origin))).
Proof.
  eexists _, _. split; [vm_compute; reflexivity|].
  eapply (calculate_demand_total midnight_parser orders_one_without_origin).
  vm_compute. reflexivity.
Defined.

(** Three orders, one without [Origin]: the counts add up to 2. *)
Example missing_origin_is_not_counted :
  Qsum (List.map Monthly_Demand (groupby_size orders_one_without_origin)) == 2 /\
  List.length orders_one_without_origin = 3%nat.
Proof. split; reflexivity. Qed.

(** ** compute_spi: the row count in general; storage cost and pressure *)

(** X6. Whatever the demand table, [compute_spi] drops no warehouse row: a
    warehouse row joined with [k] demand rows appears [max(1, k)] times, so
    the result has at least as many rows as the warehouse table (more when
    the demand table repeats a key). *)
Theorem compute_spi_row_count (dtypes : WarehouseDtypes)
    (warehouse : list WarehouseRecord) (demand : list DemandRow) :
  List.length (compute_spi dtypes warehouse demand)
  = list_sum (List.map (fun w => Nat.max 1 (match_count demand w)) warehouse) /\
  (List.length warehouse <= List.length (compute_spi dtypes warehouse demand))%nat /\
  forall w, In w warehouse ->
            exists r, In r (compute_spi dtypes warehouse demand) /\ wh r = w.
Proof.
  assert (Hlen : List.length (compute_spi dtypes warehouse demand)
                 = list_sum (List.map (fun w => Nat.max 1 (match_count demand w))
                               warehouse)).
  { unfold compute_spi, merge_left. rewrite List.length_map.
    induction warehouse as [|w t IH]; [reflexivity|].
    cbn [flat_map]. rewrite List.length_app, IH, List.map_cons, list_sum_head. f_equal.
    unfold match_count.
    destruct (List.filter (demand_matches w) demand) as [|d ds]; [reflexivity|].
    rewrite List.length_map. cbn [List.length]. lia. }
  split; [exact Hlen|]. split.
  - rewrite Hlen. clear Hlen.
    induction warehouse as [|w t IH]; [reflexivity|].
    cbn [List.map List.length]. rewrite list_sum_head. lia.
  - intros w Hw. unfold compute_spi, merge_left.
    destruct (List.filter (demand_matches w) demand) as [|d ds] eqn:Hf.
    + eexists. split.
      * apply in_map_iff. exists (w, None). split; [reflexivity|].
        apply in_flat_map. exists w. split; [exact Hw|]. rewrite Hf. now left.
      * reflexivity.
    + eexists. split.
      * apply in_map_iff. exists (w, Some d). split; [reflexivity|].
        apply in_flat_map. exists w. split; [exact Hw|]. rewrite Hf. now left.
      * reflexivity.
Qed.

Lemma filter_map_commute {A : Type} (G : A -> A) (p : A -> bool) (l : list A) :
  (forall a, p (G a) = p a) ->
  List.filter p (List.map G l) = List.map G (List.filter p l).
Proof.
  intros Hp. induction l as [|a t IH]; [reflexivity|].
  cbn [List.map List.filter]. rewrite Hp, IH. now destruct (p a).
Qed.

Lemma take_rows_map {A : Type} (G : A -> A) (rows : list A) (indexer : list nat) :
  take_rows (List.map G rows) indexer = List.map G (take_rows rows indexer).
Proof.
  unfold take_rows. induction indexer as [|i t IH]; [reflexivity|].
  cbn [flat_map]. rewrite List.map_app, IH. f_equal.
  rewrite nth_error_map. now destruct (nth_error rows i).
Qed.

Lemma merge_left_cons (w : WarehouseRecord) (t : list WarehouseRecord)
    (demand : list DemandRow) :
  merge_left (w :: t) demand
  = match List.filter (demand_matches w) demand with
    | [] => [(w, None)]
    | ds => List.map (fun d => (w, Some d)) ds
    end ++ merge_left t demand.
Proof. reflexivity. Qed.

Lemma merge_left_with_cost (c : WarehouseRecord -> Q)
    (warehouse : list WarehouseRecord) (demand : list DemandRow) :
  merge_left (List.map (fun w => set_Storage_Cost w (c w)) warehouse) demand
  = List.map (fun p => (set_Storage_Cost (fst p) (c (fst p)), snd p))
      (merge_left warehouse demand).
Proof.
  induction warehouse as [|w t IH]; [reflexivity|].
  rewrite List.map_cons, !merge_left_cons, List.map_app, IH. f_equal.
  change (demand_matches (set_Storage_Cost w (c w))) with (demand_matches w).
  destruct (List.filter (demand_matches w) demand) as [|d ds]; [reflexivity|].
  now rewrite List.map_map.
Qed.

Lemma Monthly_Demand_dtype_map (G : WarehouseRecord -> WarehouseRecord)
    (merged : list (WarehouseRecord * option DemandRow)) :
  Monthly_Demand_dtype (List.map (fun p => (G (fst p), snd p)) merged)
  = Monthly_Demand_dtype merged.
Proof.
  assert (E : forallb is_matched (List.map (fun p => (G (fst p), snd p)) merged)
              = forallb is_matched merged).
  { induction merged as [|p t IH]; [reflexivity|].
    cbn [List.map forallb]. now rewrite IH. }
  unfold Monthly_Demand_dtype. now rewrite E.
Qed.

Lemma compute_spi_with_cost (dtypes : WarehouseDtypes) (c : WarehouseRecord -> Q)
    (warehouse : list WarehouseRecord) (demand : list DemandRow) :
  compute_spi dtypes (List.map (fun w => set_Storage_Cost w (c w)) warehouse) demand
  = List.map (with_cost c) (compute_spi dtypes warehouse demand).
Proof.
  unfold compute_spi.
  rewrite merge_left_with_cost,
    (Monthly_Demand_dtype_map (fun w => set_Storage_Cost w (c w))),
    !List.map_map.
  apply map_ext. now intros [w d].
Qed.

Lemma select_donor_with_cost (K : SortKind) (c : WarehouseRecord -> Q)
    (same_cat : list PressureRow) :
  select_donor K (List.map (with_cost c) same_cat)
  = option_map (with_cost c) (select_donor K same_cat).
Proof.
  destruct same_cat as [|first t]; [reflexivity|].
  cbn [List.map select_donor option_map]. f_equal.
  unfold sort_values.
  change (with_cost c first :: List.map (with_cost c) t)
    with (List.map (with_cost c) (first :: t)).
  rewrite take_rows_map, List.map_map.
  change (fun x => SPI (with_cost c x)) with SPI.
  now destruct (take_rows (first :: t) _).
Qed.

Lemma recommend_transfers_with_cost (N : Numpy) (K : SortKind)
    (c : WarehouseRecord -> Q) (merged : list PressureRow) :
  List.map route (recommend_transfers N K (List.map (with_cost c) merged))
  = List.map route (recommend_transfers N K merged).
Proof.
  rewrite !recommend_transfers_unfold.
  rewrite !(filter_map_commute (with_cost c)) by reflexivity.
  induction (List.filter is_shortage merged) as [|row t IH]; [reflexivity|].
  cbn [List.map flat_map]. rewrite !List.map_app, IH. f_equal.
  unfold emitted.
  change (same_category (with_cost c row)) with (same_category row).
  rewrite (filter_map_commute (with_cost c)) by reflexivity.
  rewrite select_donor_with_cost.
  now destruct (select_donor K _).
Qed.

(** X7. A change of storage cost changes no [SPI] and, of the
    recommendations, nothing but [Estimated_Saving_INR]: the same receivers
    get the same donors and the same [Units]. *)
Theorem cost_change_keeps_routes (N : Numpy) (K : SortKind)
    (dtypes : WarehouseDtypes) (warehouse : list WarehouseRecord)
    (demand : list DemandRow) (pct : Q) :
  let before := compute_spi dtypes warehouse demand in
  let after := compute_spi dtypes (simulate_cost_change warehouse pct) demand in
  List.map SPI after = List.map SPI before /\
  List.map route (recommend_transfers N K after)
  = List.map route (recommend_transfers N K before).
Proof.
  unfold simulate_cost_change.
  destruct (negb (Qeq_bool pct 0)); [|split; reflexivity].
  cbv zeta.
  rewrite (compute_spi_with_cost dtypes
             (fun w => fmul (fl (Storage_Cost_per_Unit w)) (fadd 1 (fl pct)))).
  split; [|apply recommend_transfers_with_cost].
  rewrite List.map_map. reflexivity.
Qed.

(** ** recommend_transfers: receivers, balanced rows, savings, empty transfers *)

Lemma recommendation_origin (N : Numpy) (K : SortKind) (merged : list PressureRow)
    (rec : TransferRecommendation) :
  In rec (recommend_transfers N K merged) ->
  exists row donor,
    In row merged /\ SPI row < 0 /\
    In donor (candidates merged row) /\
    rec = recommendation N row donor.
Proof.
  rewrite recommend_transfers_unfold. intros Hrec.
  apply in_flat_map in Hrec as (row & Hrow & Hrec).
  apply filter_In in Hrow as [Hrow Hshort]. apply is_shortage_spec in Hshort.
  apply emitted_spec in Hrec as (donor & Hd & _ & ->).
  now exists row, donor.
Qed.

(** X8. There is exactly one recommendation for each shortage row that has
    a surplus row of its category, none for the other rows, and the
    recommendations come in the order of their receivers in the table. *)
Theorem recommend_transfers_receivers (N : Numpy) (K : SortKind)
    (merged : list PressureRow) :
  List.map receiver_of (recommend_transfers N K merged)
  = List.map receiver_row
      (List.filter (has_candidate merged) (List.filter is_shortage merged)).
Proof.
  rewrite recommend_transfers_unfold.
  induction (List.filter is_shortage merged) as [|row t IH]; [reflexivity|].
  cbn [flat_map List.filter]. rewrite List.map_app, IH.
  unfold emitted, has_candidate. fold (candidates merged row).
  pose proof (select_donor_spec K (candidates merged row)) as Hs.
  destruct (select_donor K (candidates merged row)) as [donor|].
  - destruct (candidates merged row); [now destruct Hs|reflexivity].
  - now rewrite Hs.
Qed.

Lemma filter_filter_implied {A : Type} (p q : A -> bool) (l : list A) :
  (forall a, p a = true -> q a = true) ->
  List.filter p (List.filter q l) = List.filter p l.
Proof.
  intros H. induction l as [|a t IH]; [reflexivity|].
  cbn [List.filter]. destruct (q a) eqn:Eq; cbn [List.filter]; rewrite IH.
  - reflexivity.
  - destruct (p a) eqn:Ep; [|reflexivity]. apply H in Ep. congruence.
Qed.

(** X9. The rows that the stock table labels [Balanced] take no part: the
    recommendations are those of the table without them. *)
Theorem balanced_rows_take_no_part (N : Numpy) (K : SortKind)
    (merged : list PressureRow) :
  recommend_transfers N K (List.filter not_balanced merged)
  = recommend_transfers N K merged.
Proof.
  unfold recommend_transfers.
  rewrite (filter_filter_implied is_shortage not_balanced).
  - rewrite (filter_filter_implied is_surplus not_balanced); [reflexivity|].
    intros r. unfold is_surplus, not_balanced, status. now intros ->.
  - intros r. unfold is_shortage, not_balanced, status. intros ->.
    now destruct (Qltb 0 (SPI r)).
Qed.







Lemma py_int_zero_iff (x : Q) : 0 <= x -> (py_int x = 0%Z <-> x < 1).
Proof.
  intros H. rewrite py_int_floor by exact H. split.
  - intros E. pose proof (Qlt_floor x) as Hlt. rewrite E in Hlt. exact Hlt.
  - intros Hlt.
    assert (H0 : (0 <= Qfloor x)%Z)
      by (change 0%Z with (Qfloor 0); now apply Qfloor_resp_le).
    assert (H1 : (Qfloor x < 1)%Z).
    { rewrite Zlt_Qlt. apply Qle_lt_trans with x; [apply Qfloor_le|exact Hlt]. }
    lia.
Qed.

(** X11. Every shortage row with a candidate gets its recommendation, also
    when nothing can be moved: the [Units] of the recommendation is 0
    exactly when the receiver's deficit or the donor's surplus is below one
    unit. On [half_unit_table], a deficit of one half, the one
    recommendation moves 0 units. *)
Theorem zero_unit_recommendations (N : Numpy) (K : SortKind) :
  (forall (merged : list PressureRow) (row : PressureRow),
      In row merged -> SPI row < 0 -> candidates merged row <> [] ->
      exists donor,
        In donor (candidates merged row) /\
        In (recommendation N row donor) (recommend_transfers N K merged) /\
        (Units (recommendation N row donor) = 0%Z
         <-> Qabs (SPI row) < 1 \/ SPI donor < 1)) /\
  exists rec,
    recommend_transfers N K half_unit_table = [rec] /\ Units rec = 0%Z.
Proof.
  split.
  - intros merged row Hrow Hshort Hne.
    pose proof (select_donor_spec K (candidates merged row)) as Hs.
    destruct (select_donor K (candidates merged row)) as [donor|] eqn:Hsel;
      [|contradiction].
    exists donor. destruct Hs as [Hin _]. split; [exact Hin|]. split.
    + rewrite recommend_transfers_unfold. apply in_flat_map.
      exists row. split.
      * apply filter_In. split; [exact Hrow|now apply is_shortage_spec].
      * unfold emitted. fold (candidates merged row). rewrite Hsel. now left.
    + apply candidates_spec in Hin as (_ & Hpos & _).
      assert (Hmin : 0 <= py_min (Qabs (SPI row)) (SPI donor))
        by (apply py_min_nonneg; [apply Qabs_nonneg|now apply Qlt_le_weak]).
      cbn [recommendation Units]. rewrite (py_int_zero_iff _ Hmin).
      split.
      * unfold py_min. destruct (Qlt_le_dec (SPI donor) (Qabs (SPI row))); auto.
      * intros [Hlt|Hlt].
        -- eapply Qle_lt_trans; [apply py_min_le_l|exact Hlt].
        -- eapply Qle_lt_trans; [apply py_min_le_r|exact Hlt].
  - exists (recommendation N (pressure_row "R" "Toys" (- (1 # 2)))
              (pressure_row "D" "Toys" 8)).
    split; [|reflexivity].
    rewrite recommend_transfers_unfold.
    change (List.filter is_shortage half_unit_table)
      with [pressure_row "R" "Toys" (- (1 # 2))].
    change (List.filter is_surplus half_unit_table)
      with [pressure_row "D" "Toys" 8].
    cbn [flat_map]. unfold emitted.
    change (List.filter (same_category (pressure_row "R" "Toys" (- (1 # 2))))
              [pressure_row "D" "Toys" 8]) with [pressure_row "D" "Toys" 8].
    rewrite select_donor_single. reflexivity.
Qed.

(** ** calculate_metrics: bounds, tables without shortage, the risk list *)





Lemma flat_map_nil {A B : Type} (f : A -> list B) (l : list A) :
  (forall a, In a l -> f a = []) -> flat_map f l = [].
Proof.
  induction l as [|a t IH]; [reflexivity|]. intros H.
  cbn [flat_map]. rewrite (H a) by now left. apply IH.
  intros b Hb. apply H. now right.
Qed.

(** X13. When no row is in shortage, or none is in surplus, there is no
    recommendation, and the metrics, if the table has a row, report a
    [potential_cost_saving] of 0. *)
Theorem no_transfer_without_both_sides (N : Numpy) (K : SortKind)
    (merged : list PressureRow) :
  List.filter is_shortage merged = [] \/ List.filter is_surplus merged = [] ->
  recommend_transfers N K merged = [] /\
  forall m, calculate_metrics N K merged = Ok m -> potential_cost_saving m = 0.
Proof.
  intros H.
  assert (Hrec : recommend_transfers N K merged = []).
  { rewrite recommend_transfers_unfold. destruct H as [-> | ->]; [reflexivity|].
    apply flat_map_nil. intros row _. reflexivity. }
  split; [exact Hrec|].
  intros m. unfold calculate_metrics. rewrite Hrec.
  destruct (py_truediv _ _) as [ratio|e]; [|discriminate].
  now intros [= <-].
Qed.

Lemma no_transfer_without_both_sides_witness :
  recommend_transfers float64_scalars stable_sort
    [pressure_row "A" "Toys" 4; pressure_row "B" "Toys" 0] = [] /\
  forall m,
    calculate_metrics float64_scalars stable_sort
      [pressure_row "A" "Toys" 4; pressure_row "B" "Toys" 0] = Ok m ->
    potential_cost_saving m = 0.
Proof.
  apply (no_transfer_without_both_sides float64_scalars stable_sort).
  left. reflexivity.
Defined.

Lemma take_rows_seq_from {A : Type} (rows front : list A) :
  take_rows (front ++ rows) (seq (List.length front) (List.length rows)) = rows.
Proof.
  revert front. induction rows as [|r t IH]; intros front; [reflexivity|].
  cbn [List.length seq]. unfold take_rows. cbn [flat_map].
  rewrite nth_error_app2, Nat.sub_diag by lia. cbn [nth_error List.app]. f_equal.
  specialize (IH (front ++ [r])).
  rewrite <- List.app_assoc, List.length_app in IH. cbn [List.length List.app] in IH.
  rewrite Nat.add_1_r in IH. exact IH.
Qed.

Lemma take_rows_seq {A : Type} (rows : list A) :
  take_rows rows (seq 0 (List.length rows)) = rows.
Proof. apply (take_rows_seq_from rows []). Qed.



Section AscendingSort.

Variable K : SortKind.
Context {A : Type}.
Variable by_col : A -> Q.



End AscendingSort.














(** ** simulate_cost_change and simulate_demand_change *)

Lemma set_Storage_Cost_same (w : WarehouseRecord) :
  set_Storage_Cost w (Storage_Cost_per_Unit w) = w.
Proof. now destruct w. Qed.

Lemma fmul_nonpos (x y : Q) : 0 <= x -> y <= 0 -> fmul x y <= 0.
Proof.
  intros Hx Hy. apply fl_nonpos.
  apply Qle_minus_iff.
  assert (E : 0 + - (x * y) == x * - y) by ring. rewrite E.
  apply Qmult_le_0_compat; [exact Hx|].
  apply (Qopp_le_compat y 0) in Hy. exact Hy.
Qed.

(** X15. With [pct = 0], [simulate_cost_change] returns the table as it is.
    Otherwise it returns the same rows in the same order with every
    [Storage_Cost_per_Unit] replaced by the float product of the cost and of
    the float sum [1 + pct], and nothing else changed. There is no floor:
    from [pct = -1] downwards a cost that was not negative is 0 or
    negative. *)
Theorem simulate_cost_change_rows (warehouse : list WarehouseRecord) (pct : Q) :
  if Qeq_bool pct 0 then simulate_cost_change warehouse pct = warehouse
  else Forall2 (cost_changed pct) warehouse (simulate_cost_change warehouse pct).
Proof.
  unfold simulate_cost_change. destruct (Qeq_bool pct 0) eqn:E; cbn [negb].
  - reflexivity.
  - induction warehouse as [|w t IH]; cbn [List.map]; constructor; [|exact IH].
    split; [reflexivity|]. split; [reflexivity|].
    cbn [set_Storage_Cost Storage_Cost_per_Unit]. split.
    + intros Hp Hc. apply fmul_nonneg; [now apply fl_nonneg|].
      apply fl_nonneg.
      assert (Hf : -1 <= fl pct).
      { apply Qle_trans with (fl (-1)); [vm_compute; discriminate|].
        now apply fl_monotone. }
      apply Qle_minus_iff in Hf. apply Qle_minus_iff.
      assert (E0 : 1 + fl pct + - 0 == fl pct + - -1) by ring. now rewrite E0.
    + intros Hp Hc. apply fmul_nonpos; [now apply fl_nonneg|].
      apply fl_nonpos.
      assert (Hf : fl pct <= -1).
      { apply Qle_trans with (fl (-1)); [|vm_compute; discriminate].
        now apply fl_monotone. }
      apply Qle_minus_iff in Hf. apply Qle_minus_iff.
      assert (E0 : 0 + - (1 + fl pct) == -1 + - fl pct) by ring. now rewrite E0.
Qed.

(** A cost of 25.5 raised by 5%: the float product is
    26.775000000000002, not 26.775. *)
Example cost_product_is_rounded :
  let pct := 5 # 100 in
  List.map Storage_Cost_per_Unit
    (simulate_cost_change [fractional_cost] pct)
  = [fmul (fl (255 # 10)) (fadd 1 (fl pct))] /\
  fmul (fl (255 # 10)) (fadd 1 (fl pct)) == 7536492501427815 # 281474976710656 /\
  26775 # 1000 < fmul (fl (255 # 10)) (fadd 1 (fl pct)).
Proof. repeat split; vm_compute; reflexivity. Qed.

Lemma simulate_demand_change_cases (rand : nat -> nat) (orders : list OrderRecord)
    (pct : Q) :
  simulate_demand_change rand orders pct
  = match Qcompare pct 0 with
    | Eq => Ok orders
    | Gt => Ok (orders ++ take_rows orders (growth_indexer rand orders pct))
    | Lt =>
        match orders with
        | [] => Raise ValueError
        | _ => Ok (take_rows orders (shrink_indexer rand orders pct))
        end
    end.
Proof.
  unfold simulate_demand_change, growth_indexer, shrink_indexer, change_amount.
  set (N := Z.of_nat (List.length orders)).
  set (change := py_int (fmul (fl (inject_Z N)) (Qabs (fl pct)))).
  assert (Hchange : (0 <= change)%Z) by (apply change_amount_nonneg; lia).
  destruct (Qcompare pct 0) eqn:Hc.
  - apply Qeq_alt, Qeq_bool_iff in Hc. now rewrite Hc.
  - assert (Hne : Qeq_bool pct 0 = false).
    { destruct (Qeq_bool pct 0) eqn:E; [|reflexivity].
      apply Qeq_bool_iff, Qeq_alt in E. congruence. }
    assert (Hlt : Qltb 0 pct = false).
    { apply not_true_is_false. intros E. apply Qltb_lt in E.
      apply Qlt_alt in Hc. apply (Qlt_irrefl 0). now apply Qlt_trans with pct. }
    rewrite Hne, Hlt. cbn [negb].
    destruct orders as [|o t]; [reflexivity|].
    assert (HN : (1 <= N)%Z) by (unfold N; cbn [List.length]; lia).
    set (orders := o :: t) in *.
    unfold sample, choice.
    replace (List.length orders =? 0)%nat with false
      by (symmetry; apply Nat.eqb_neq; unfold N in HN; lia).
    replace (List.length orders <? Z.to_nat (Z.max (N - change) 1))%nat with false
      by (symmetry; apply Nat.ltb_ge; unfold N in *; lia).
    reflexivity.
  - assert (Hne : Qeq_bool pct 0 = false).
    { destruct (Qeq_bool pct 0) eqn:E; [|reflexivity].
      apply Qeq_bool_iff, Qeq_alt in E. congruence. }
    assert (Hlt : Qltb 0 pct = true) by (apply Qltb_lt; now apply Qgt_alt).
    rewrite Hne, Hlt. cbn [negb].
    unfold sample, choice.
    replace ((List.length orders =? 0)%nat
             && negb (Z.to_nat (Z.min change N) =? 0)%nat) with false; [reflexivity|].
    symmetry. apply andb_false_iff.
    destruct (List.length orders) eqn:E; [right|left; reflexivity].
    replace (Z.to_nat (Z.min change N)) with 0%nat by (unfold N in *; lia).
    reflexivity.
Qed.


Lemma filter_length_perm {A : Type} (p : A -> bool) (l l' : list A) :
  Permutation l l' ->
  List.length (List.filter p l) = List.length (List.filter p l').
Proof.
  induction 1 as [|x l l' _ IH|x y l|l l' l'' _ IH1 _ IH2]; cbn [List.filter].
  - reflexivity.
  - destruct (p x); cbn [List.length]; now rewrite IH.
  - now destruct (p x), (p y).
  - now rewrite IH1.
Qed.

Lemma take_rows_app {A : Type} (rows : list A) (i j : list nat) :
  take_rows rows (i ++ j) = take_rows rows i ++ take_rows rows j.
Proof. unfold take_rows. apply flat_map_app. Qed.

Lemma shrink_is_part (rand : nat -> nat) (orders : list OrderRecord) (pct : Q) :
  exists rest,
    Permutation orders (take_rows orders (shrink_indexer rand orders pct) ++ rest).
Proof.
  unfold shrink_indexer.
  destruct (draw_part rand
              (Z.to_nat (Z.max (Z.of_nat (List.length orders)
                                - change_amount orders pct) 1))
              0 (seq 0 (List.length orders))) as (rest & Hrest).
  exists (take_rows orders rest).
  rewrite <- take_rows_app. rewrite <- (take_rows_seq orders) at 1.
  unfold take_rows. now apply Permutation_flat_map.
Qed.

(** X17. A simulated growth lowers the size of no
    [(Origin, Product_Category)] group and a simulated decline raises none;
    neither brings a group that the input did not have. *)
Theorem simulate_demand_change_groups (rand : nat -> nat)
    (orders : list OrderRecord) (pct : Q) :
  match simulate_demand_change rand orders pct with
  | Ok out =>
      (0 <= pct -> forall k, (group_size k orders <= group_size k out)%nat) /\
      (pct <= 0 -> forall k, (group_size k out <= group_size k orders)%nat) /\
      (forall k, In k (List.map order_key out) -> In k (List.map order_key orders))
  | Raise _ => True
  end.
Proof.
  rewrite simulate_demand_change_cases.
  destruct (Qcompare pct 0) eqn:Hc.
  - split; [auto|]. split; auto.
  - destruct orders as [|o t]; [exact I|].
    set (orders := o :: t) in *.
    split; [|split].
    + intros Hp. apply Qlt_alt in Hc. exfalso.
      apply (Qlt_irrefl pct). now apply Qlt_le_trans with 0.
    + intros _ k. unfold group_size.
      destruct (shrink_is_part rand orders pct) as (rest & Hrest).
      rewrite (filter_length_perm _ _ _ Hrest), List.filter_app, List.length_app. lia.
    + intros k Hk. apply in_map_iff in Hk as (x & <- & Hx).
      apply in_map. now apply take_rows_In in Hx.
  - split; [|split].
    + intros _ k. unfold group_size. rewrite List.filter_app, List.length_app. lia.
    + intros Hp. apply Qgt_alt in Hc. exfalso.
      apply (Qlt_irrefl pct). now apply Qle_lt_trans with 0.
    + intros k Hk. apply in_map_iff in Hk as (x & <- & Hx). apply in_map.
      apply in_app_or in Hx as [Hx|Hx]; [exact Hx|now apply take_rows_In in Hx].
Qed.



(** ** validate_data: when it raises, what it accepts, what it reads *)

Lemma has_text_b_spec (df : DataFrame) (col : string) :
  has_text_b df col = true <-> has_text df col.
Proof.
  unfold has_text_b, has_text. split.
  - destruct (df !! col) as [column|]; [|discriminate].
    intros H. apply existsb_exists in H as ([q|s|] & Hin & Ht); try discriminate.
    now exists column, s.
  - intros (column & s & -> & Hin). apply existsb_exists. now exists (Text s).
Qed.

Lemma has_text_b_false (df : DataFrame) (col : string) :
  has_text_b df col = false -> numeric_column df col.
Proof.
  unfold has_text_b, numeric_column. intros H column E. rewrite E in H.
  apply List.Forall_forall. intros c Hc s ->.
  assert (Ht : existsb is_text column = true)
    by (apply existsb_exists; now exists (Text s)).
  congruence.
Qed.

Lemma any_lt_text (column : list cell) (k : Q) :
  existsb is_text column = true -> any_lt column k = Raise TypeError.
Proof.
  unfold any_lt. intros H.
  assert (E : mapM (cell_lt k) column = Raise TypeError).
  { induction column as [|c t IH]; [discriminate|].
    cbn [mapM]. destruct c as [q|s|]; cbn [cell_lt existsb is_text orb] in *.
    - rewrite IH by exact H. reflexivity.
    - reflexivity.
    - rewrite IH by exact H. reflexivity. }
  now rewrite E.
Qed.

Lemma negative_check_text (df : DataFrame) (col message : string)
    (errors : list string) :
  has_text_b df col = true ->
  negative_check df col message errors = Raise TypeError.
Proof.
  unfold has_text_b, negative_check.
  destruct (df !! col) as [column|]; [|discriminate].
  intros H. now rewrite any_lt_text.
Qed.

(** X19. [validate_data] raises exactly when the [Current_Stock_Units] or
    the [Storage_Cost_per_Unit] column holds text, and what it raises is a
    [TypeError]; no other content of the two tables makes it raise. *)
Theorem validate_data_raises_iff (warehouse orders : DataFrame) :
  match validate_data warehouse orders with
  | Raise e =>
      e = TypeError /\
      (has_text warehouse "Current_Stock_Units" \/
       has_text warehouse "Storage_Cost_per_Unit")
  | Ok _ =>
      ~ has_text warehouse "Current_Stock_Units" /\
      ~ has_text warehouse "Storage_Cost_per_Unit"
  end.
Proof.
  destruct (has_text_b warehouse "Current_Stock_Units") eqn:Es.
  - unfold validate_data. rewrite negative_check_text by exact Es.
    split; [reflexivity|]. left. now apply has_text_b_spec.
  - destruct (has_text_b warehouse "Storage_Cost_per_Unit") eqn:Ec.
    + unfold validate_data.
      rewrite negative_check_numeric by now apply has_text_b_false.
      change (Ok ?x ≫= ?f) with (f x). cbv beta.
      rewrite negative_check_text by exact Ec.
      split; [reflexivity|]. right. now apply has_text_b_spec.
    + rewrite validate_data_numeric by now apply has_text_b_false.
      split; intros H; apply has_text_b_spec in H; congruence.
Qed.

Lemma missing_columns_nil (df : DataFrame) (required : list string) :
  missing_columns df required = [] <-> all_present df required.
Proof.
  unfold missing_columns, all_present. split.
  - intros E col Hin Hnone.
    assert (H : In col (List.filter (fun c => negb (has_column df c)) required)).
    { apply filter_In. split; [exact Hin|].
      apply negb_true_iff. now apply has_column_false. }
    rewrite E in H. destruct H.
  - intros H. induction required as [|c t IH]; [reflexivity|].
    cbn [List.filter]. destruct (has_column df c) eqn:E; cbn [negb].
    + apply IH. intros col Hin. apply H. now right.
    + apply has_column_false in E. exfalso. apply (H c); [now left|exact E].
Qed.

(** X20. [validate_data] returns [(True, [])] for exactly the tables that
    have every required column, hold no text in [Current_Stock_Units] and
    [Storage_Cost_per_Unit], and hold no negative value there. *)
Theorem validate_data_accepts_iff (warehouse orders : DataFrame) :
  validate_data warehouse orders = Ok (true, []) <->
  all_present warehouse required_warehouse_cols /\
  all_present orders required_orders_cols /\
  ~ has_text warehouse "Current_Stock_Units" /\
  ~ has_text warehouse "Storage_Cost_per_Unit" /\
  ~ has_negative warehouse "Current_Stock_Units" /\
  ~ has_negative warehouse "Storage_Cost_per_Unit".
Proof.
  rewrite <- !has_text_b_spec, <- !has_negative_b_spec, <- !missing_columns_nil.
  destruct (has_text_b warehouse "Current_Stock_Units") eqn:Es.
  { unfold validate_data. rewrite negative_check_text by exact Es.
    split; [discriminate|]. intros (_ & _ & H & _). now destruct H. }
  destruct (has_text_b warehouse "Storage_Cost_per_Unit") eqn:Ec.
  { unfold validate_data.
    rewrite negative_check_numeric by now apply has_text_b_false.
    change (Ok ?x ≫= ?f) with (f x). cbv beta.
    rewrite negative_check_text by exact Ec.
    split; [discriminate|]. intros (_ & _ & _ & H & _). now destruct H. }
  rewrite validate_data_numeric by now apply has_text_b_false.
  unfold reported_errors, missing_report.
  destruct (missing_columns warehouse required_warehouse_cols);
    destruct (missing_columns orders required_orders_cols);
    destruct (has_negative_b warehouse "Current_Stock_Units");
    destruct (has_negative_b warehouse "Storage_Cost_per_Unit");
    cbn [List.app]; split;
    try discriminate; try (intros (? & ? & ? & ? & ? & ?); congruence);
    intros _; repeat split; congruence.
Qed.

Lemma missing_columns_same (required : list string) (df df' : DataFrame) :
  same_columns required df df' ->
  missing_columns df required = missing_columns df' required.
Proof.
  intros H. unfold missing_columns. apply List.filter_ext_in. intros col Hin.
  f_equal. specialize (H col Hin).
  destruct (has_column df col) eqn:E, (has_column df' col) eqn:E'; try reflexivity.
  - apply has_column_false in E'. apply H in E'.
    apply has_column_false in E'. congruence.
  - apply has_column_false in E. apply H in E.
    apply has_column_false in E. congruence.
Qed.

(** X21. Of the orders table [validate_data] reads only which required
    columns exist, and of the warehouse table that and the cells of
    [Current_Stock_Units] and [Storage_Cost_per_Unit]: tables that agree on
    these get the same answer, whatever their other cells hold. *)
Theorem validate_data_reads (warehouse warehouse' orders orders' : DataFrame) :
  same_columns required_warehouse_cols warehouse warehouse' ->
  same_columns required_orders_cols orders orders' ->
  warehouse !! "Current_Stock_Units" = warehouse' !! "Current_Stock_Units" ->
  warehouse !! "Storage_Cost_per_Unit" = warehouse' !! "Storage_Cost_per_Unit" ->
  validate_data warehouse orders = validate_data warehouse' orders'.
Proof.
  intros Hw Ho Hs Hc. unfold validate_data, negative_check.
  fold (missing_columns warehouse required_warehouse_cols).
  fold (missing_columns warehouse' required_warehouse_cols).
  fold (missing_columns orders required_orders_cols).
  fold (missing_columns orders' required_orders_cols).
  now rewrite (missing_columns_same _ _ _ Hw), (missing_columns_same _ _ _ Ho), Hs, Hc.
Qed.

Lemma validate_data_reads_witness :
  validate_data warehouse_missing_reorder orders_frame
  = validate_data warehouse_other_location orders_all_missing.
Proof.
  apply validate_data_reads.
  - intros col Hin. cbn [required_warehouse_cols In] in Hin.
    repeat (destruct Hin as [<-|Hin]; [vm_compute; split; intros H; exact H || discriminate H|]).
    destruct Hin.
  - intros col Hin. cbn [required_orders_cols In] in Hin.
    repeat (destruct Hin as [<-|Hin]; [vm_compute; split; intros H; exact H || discriminate H|]).
    destruct Hin.
  - vm_compute. reflexivity.
  - vm_compute. reflexivity.
Defined.

(** ** The dashboard: main run and impact panel; repeated cost changes *)

(** X22. The impact panel of the dashboard compares the metrics with
    metrics recomputed from the already simulated tables: whenever the run
    completes, its "original" metrics are the metrics shown, so every change
    it displays is 0, whatever the sliders. *)
Theorem simulation_impact_is_zero (to_datetime : Parser) (N : Numpy)
    (K : SortKind) (rand : nat -> nat) (dtypes : WarehouseDtypes)
    (warehouse_data : list WarehouseRecord) (orders_data : list OrderRecord)
    (demand_change cost_change : Q) :
  match dashboard_run to_datetime N K rand dtypes warehouse_data orders_data
          demand_change cost_change with
  | Ok (metrics, _, original_metrics) =>
      original_metrics = metrics /\
      shortage_percentage metrics - shortage_percentage original_metrics == 0 /\
      potential_cost_saving metrics - potential_cost_saving original_metrics == 0
  | Raise _ => True
  end.
Proof.
  unfold dashboard_run.
  destruct (if negb (Qeq_bool demand_change 0) then _ else _) as [orders_sim|e];
    [|exact I].
  change (Ok orders_sim ≫= ?f) with (f orders_sim). cbv beta zeta.
  set (warehouse_sim := if negb (Qeq_bool cost_change 0) then _ else _).
  destruct (calculate_demand to_datetime orders_sim) as [[orders' demand]|e] eqn:E;
    [|exact I].
  change (Ok (orders', demand) ≫= ?f) with (f (orders', demand)). cbv beta iota.
  destruct (calculate_metrics N K (compute_spi dtypes warehouse_sim demand))
    as [m|e] eqn:Em;
    [|exact I].
  change (Ok m ≫= ?f) with (f m). cbv beta.
  assert (E2 : calculate_demand to_datetime orders' = Ok (orders', demand)).
  { pose proof (calculate_demand_leaves_timestamps _ _ _ _ E) as Hts.
    apply calculate_demand_Ok in E as ->.
    unfold calculate_demand. now rewrite mapM_parse_timestamps. }
  rewrite E2.
  change (Ok (orders', demand) ≫= ?f) with (f (orders', demand)). cbv beta iota.
  rewrite Em. change (Ok m ≫= ?f) with (f m). cbv beta.
  split; [reflexivity|]. split; ring.
Qed.

(** ** The pressure table from the orders *)

Lemma demand_matches_key (w : WarehouseRecord) (d : DemandRow) :
  demand_matches w d = true <-> demand_key d = (Location w, Product_Category w).
Proof.
  rewrite demand_matches_spec. unfold matching_demand, demand_key.
  split; [intros [-> ->]; reflexivity|intros [= -> ->]; auto].
Qed.

Lemma joined_demand (orders : list OrderRecord) (w : WarehouseRecord) :
  fillna0 (hd_error (List.filter (demand_matches w) (groupby_size orders)))
  = inject_Z (Z.of_nat (orders_at orders w)) /\
  (List.length (List.filter (demand_matches w) (groupby_size orders)) <= 1)%nat.
Proof.
  split; [|apply matches_at_most_one, groupby_size_keys_NoDup].
  destruct (List.filter (demand_matches w) (groupby_size orders)) as [|d ds] eqn:Hf;
    cbn [hd_error fillna0].
  - unfold orders_at, group_size.
    destruct (List.filter _ orders) as [|o os] eqn:Ho; [reflexivity|]. exfalso.
    assert (Hin : In o (List.filter (has_key (Location w, Product_Category w)) orders))
      by (rewrite Ho; now left).
    apply filter_In in Hin as [Hin Hk]. unfold has_key in Hk.
    destruct (order_key o) as [k|] eqn:Eo; [|discriminate].
    apply key_eqb_eq in Hk. subst k.
    apply (groupby_size_covers _ _ _ Hin) in Eo.
    apply in_map_iff in Eo as (d & Hd & Hin').
    assert (Hd' : In d (List.filter (demand_matches w) (groupby_size orders)))
      by (apply filter_In; split; [exact Hin'|now apply demand_matches_key]).
    rewrite Hf in Hd'. destruct Hd'.
  - assert (Hd : In d (List.filter (demand_matches w) (groupby_size orders)))
      by (rewrite Hf; now left).
    apply filter_In in Hd as [Hin Hm]. apply demand_matches_key in Hm.
    pose proof (groupby_size_counts orders) as Hc.
    rewrite List.Forall_forall in Hc. rewrite (Hc d Hin), Hm. reflexivity.
Qed.

(** A warehouse row finds a demand row exactly when some order comes from
    its location in its category. *)
Lemma matched_iff_ordered (orders : list OrderRecord) (w : WarehouseRecord) :
  match List.filter (demand_matches w) (groupby_size orders) with
  | [] => orders_at orders w = 0%nat
  | _ => orders_at orders w <> 0%nat
  end.
Proof.
  destruct (List.filter (demand_matches w) (groupby_size orders)) as [|d ds] eqn:Hf.
  - destruct (joined_demand orders w) as [Hv _]. rewrite Hf in Hv.
    cbn [hd_error fillna0] in Hv. injection Hv as Hv. lia.
  - assert (Hd : In d (List.filter (demand_matches w) (groupby_size orders)))
      by (rewrite Hf; now left).
    apply filter_In in Hd as [Hin Hm]. apply demand_matches_key in Hm.
    assert (Hk : In (demand_key d) (List.map demand_key (groupby_size orders)))
      by now apply in_map.
    apply groupby_size_keys in Hk. apply in_map_iff in Hk as (o & Ho & Hino).
    unfold orders_at, group_size. rewrite <- Hm.
    assert (Hf' : In o (List.filter (has_key (demand_key d)) orders)).
    { apply filter_In. split; [exact Hino|]. unfold has_key. rewrite Ho.
      now apply key_eqb_eq. }
    destruct (List.filter (has_key (demand_key d)) orders); [destruct Hf'|discriminate].
Qed.

Lemma forallb_map_const {A B : Type} (p : B -> bool) (f : A -> B) (l : list A) (v : bool) :
  l <> [] -> (forall a, p (f a) = v) -> forallb p (List.map f l) = v.
Proof.
  intros Hne Hp. induction l as [|a t IH]; [contradiction|].
  cbn [List.map forallb]. rewrite Hp.
  destruct t as [|b t]; [cbn; now destruct v|].
  rewrite IH by discriminate. now destruct v.
Qed.

Lemma Monthly_Demand_dtype_orders (orders : list OrderRecord)
    (warehouse : list WarehouseRecord) :
  Monthly_Demand_dtype (merge_left warehouse (groupby_size orders))
  = demand_dtype_of orders warehouse.
Proof.
  unfold Monthly_Demand_dtype, demand_dtype_of.
  assert (E : forallb is_matched (merge_left warehouse (groupby_size orders))
              = forallb (fun w => negb (orders_at orders w =? 0)%nat) warehouse).
  { induction warehouse as [|w t IH]; [reflexivity|].
    rewrite merge_left_cons, forallb_app, IH. cbn [forallb]. f_equal.
    pose proof (matched_iff_ordered orders w) as Hm.
    destruct (List.filter (demand_matches w) (groupby_size orders)) as [|d ds].
    - rewrite Hm. reflexivity.
    - apply Nat.eqb_neq in Hm. rewrite Hm.
      apply forallb_map_const; [discriminate|reflexivity]. }
  now rewrite E.
Qed.

(** X25. After a successful [calculate_demand], [compute_spi] gives, row for
    row of the warehouse table, a [Monthly_Demand] equal to the number of
    orders whose [Origin] is the row's [Location] and whose category is the
    row's, and an [SPI] that is [(stock - reorder level) - that number] in
    the arithmetic of the columns, where [Monthly_Demand] is an int64 column
    when every warehouse row has such an order and a float64 column
    otherwise. *)
Theorem pressure_from_orders (to_datetime : Parser)
    (orders orders' : list OrderRecord) (demand : list DemandRow)
    (dtypes : WarehouseDtypes) (warehouse : list WarehouseRecord) :
  calculate_demand to_datetime orders = Ok (orders', demand) ->
  List.map (fun r => (wh r, merged_Monthly_Demand r, SPI r))
    (compute_spi dtypes warehouse demand)
  = List.map
      (fun w =>
         let n := inject_Z (Z.of_nat (orders_at orders w)) in
         (w, n,
          series_sub
            (result_type (Current_Stock_Units_dtype dtypes)
               (Reorder_Level_dtype dtypes))
            (demand_dtype_of orders warehouse)
            (series_sub (Current_Stock_Units_dtype dtypes)
               (Reorder_Level_dtype dtypes)
               (Current_Stock_Units w) (Reorder_Level w))
            n))
      warehouse.
Proof.
  intros H. apply calculate_demand_groups_input in H as ->.
  unfold compute_spi. rewrite Monthly_Demand_dtype_orders.
  generalize (demand_dtype_of orders warehouse). intros d0.
  induction warehouse as [|w t IH]; [reflexivity|].
  rewrite merge_left_cons, !List.map_app, IH, List.map_cons.
  change (?x :: ?l) with ([x] ++ l) at 2. f_equal.
  destruct (joined_demand orders w) as [Hv Hle].
  destruct (List.filter (demand_matches w) (groupby_size orders)) as [|d [|d' ds]];
    cbn [hd_error List.length] in *; [| |lia].
  - cbn [List.map fillna0] in *. cbv zeta. now rewrite <- Hv.
  - cbn [List.map fillna0] in *. cbv zeta. now rewrite <- Hv.
Qed.

Lemma pressure_from_orders_witness :
  exists orders' demand,
    calculate_demand midnight_parser sample_orders = Ok (orders', demand) /\
    List.map (fun r => (wh r, merged_Monthly_Demand r, SPI r))
      (compute_spi integer_stock sample_warehouse demand)
    = List.map
        (fun w =>
           let n := inject_Z (Z.of_nat (orders_at sample_orders w)) in
           (w, n,
            series_sub
              (result_type (Current_Stock_Units_dtype integer_stock)
                 (Reorder_Level_dtype integer_stock))
              (demand_dtype_of sample_orders sample_warehouse)
              (series_sub (Current_Stock_Units_dtype integer_stock)
                 (Reorder_Level_dtype integer_stock)
                 (Current_Stock_Units w) (Reorder_Level w))
              n))
        sample_warehouse.
Proof.
  eexists _, _. split; [vm_compute; reflexivity|].
  eapply (pressure_from_orders midnight_parser sample_orders).
  vm_compute. reflexivity.
Defined.

(** The run on the two-warehouse scenario with both sliders moved
    completes. *)
Example dashboard_run_completes :
  exists metrics recommendations,
    dashboard_run midnight_parser float64_scalars stable_sort counting_source
      integer_stock sample_warehouse sample_orders 10 5
    = Ok (metrics, recommendations, metrics).
Proof. eexists _, _. vm_compute. reflexivity. Qed.
